(** * The blog synchronisation layer of [src/app.js]

    A shallow embedding of the React component [App]: its state variables,
    the two [useEffect] bodies (Firebase bootstrap and the live posts
    listener), the three CRUD callbacks and the click handlers that reach
    them, followed by the properties the specification states about them.

    Conventions.
    - A JavaScript object literal of the program is a record of optional
      fields ([None] is an absent or [undefined] property).
    - Numbers are the integer millisecond counts that [Date.now()] returns,
      so they are [Z]; text is [string].
    - Calls into the Firebase SDK and to [console.error] are recorded as a
      list of [Effect]s, in program order; [collection] and [doc], which
      only build a reference, are functions that may throw.
    - An [async] function is split at its [await]: the part that runs in the
      caller's turn, and the part that runs when the promise settles. *)

From stdpp Require Import base option list sorting strings.
From Stdlib Require Import ZArith Ascii.

Local Open Scope string_scope.
Local Open Scope Z_scope.
Local Open Scope list_scope.

(** ** JavaScript values of the program *)

(** The objects that flow through the component: the drafts
    [{ title, content }], the posts [{ id, ...doc.data() }] and the payloads
    handed to [addDoc] and [updateDoc]. *)
Record Obj := mkObj {
  id : option string;
  title : option string;
  content : option string;
  author : option string;
  timestamp : option Z
}.

#[global] Instance Obj_eq_dec : EqDecision Obj.
Proof. solve_decision. Defined.

Definition emptyObj : Obj := mkObj None None None None None.

(** [{ ...base, ...over }]: a property of [over] wins over the same property
    of [base]. *)
Definition spread (base over : Obj) : Obj :=
  {| id := from_option Some (id base) (id over);
     title := from_option Some (title base) (title over);
     content := from_option Some (content base) (content over);
     author := from_option Some (author base) (author over);
     timestamp := from_option Some (timestamp base) (timestamp over) |}.

(** Truthiness of a property that holds text: [undefined] and [''] are
    falsy. *)
Definition truthy (v : option string) : bool :=
  match v with
  | Some s => bool_decide (s ≠ "")
  | None => false
  end.

(** [n || 0] on a numeric property: [undefined] and [0] both give [0]. *)
Definition orZero (v : option Z) : Z :=
  match v with
  | Some n => if bool_decide (n = 0) then 0 else n
  | None => 0
  end.

(** Template-literal rendering of [userId], which may still be [null]. *)
Definition interpolate (v : option string) : string :=
  match v with
  | Some s => s
  | None => "null"
  end.

(** ** [Array.prototype.sort]

    The comparator returns a number; [x] goes before [y] when the comparator
    is negative and keeps its place on a tie (the sort is stable).  The
    model inserts from the right, so that an element meets only elements
    that followed it in the input. *)
Fixpoint sort_insert {A} (cmp : A → A → Z) (x : A) (l : list A) : list A :=
  match l with
  | [] => [x]
  | y :: l' => if bool_decide (cmp x y ≤ 0) then x :: y :: l'
               else y :: sort_insert cmp x l'
  end.

Definition array_sort {A} (cmp : A → A → Z) (l : list A) : list A :=
  foldr (sort_insert cmp) [] l.

(** ** The snapshot callback *)

(** One document of a query snapshot: [doc.id] and [doc.data()]. *)
Record QueryDocumentSnapshot := mkDoc {
  doc_id : string;
  doc_data : Obj
}.

(** [{ id: doc.id, ...doc.data() }] *)
Definition toPost (d : QueryDocumentSnapshot) : Obj :=
  spread (mkObj (Some (doc_id d)) None None None None) (doc_data d).

(** [(a, b) => (b.timestamp || 0) - (a.timestamp || 0)] *)
Definition byTimestampDesc (a b : Obj) : Z :=
  orZero (timestamp b) - orZero (timestamp a).

(** [snapshot.forEach(doc => fetchedPosts.push(...)); fetchedPosts.sort(...)] *)
Definition fetchedPosts (snapshot : list QueryDocumentSnapshot) : list Obj :=
  array_sort byTimestampDesc (toPost <$> snapshot).

(** ** Component state *)

Inductive MainView := home | blog.
Inductive BlogView := public | admin.

(** The handles returned by [getFirestore] and [getAuth]. *)
Inductive Firestore := firestore.
Inductive Auth := firebaseAuth.

#[global] Instance MainView_eq_dec : EqDecision MainView.
Proof. solve_decision. Defined.
#[global] Instance BlogView_eq_dec : EqDecision BlogView.
Proof. solve_decision. Defined.
#[global] Instance Firestore_eq_dec : EqDecision Firestore.
Proof. solve_decision. Defined.
#[global] Instance Auth_eq_dec : EqDecision Auth.
Proof. solve_decision. Defined.

(** The [useState] cells of [App], under the names the source gives them. *)
Record State := mkState {
  mainView : MainView;
  blogView : BlogView;
  posts : list Obj;
  isAuthReady : bool;
  userId : option string;
  newPost : Obj;
  editingPost : option Obj;
  showDeleteModal : bool;
  postToDelete : option Obj;
  isMobileMenuOpen : bool;
  db : option Firestore;
  auth : option Auth
}.

(** [{ title: '', content: '' }] *)
Definition blankPost : Obj := mkObj None (Some "") (Some "") None None.

(** The initial values passed to [useState]. *)
Definition initialState : State :=
  mkState home public [] false None blankPost None false None false None None.

(** The state setters. *)
Definition setMainView (v : MainView) (s : State) : State :=
  mkState v (blogView s) (posts s) (isAuthReady s) (userId s) (newPost s)
    (editingPost s) (showDeleteModal s) (postToDelete s) (isMobileMenuOpen s)
    (db s) (auth s).
Definition setBlogView (v : BlogView) (s : State) : State :=
  mkState (mainView s) v (posts s) (isAuthReady s) (userId s) (newPost s)
    (editingPost s) (showDeleteModal s) (postToDelete s) (isMobileMenuOpen s)
    (db s) (auth s).
Definition setPosts (v : list Obj) (s : State) : State :=
  mkState (mainView s) (blogView s) v (isAuthReady s) (userId s) (newPost s)
    (editingPost s) (showDeleteModal s) (postToDelete s) (isMobileMenuOpen s)
    (db s) (auth s).
Definition setIsAuthReady (v : bool) (s : State) : State :=
  mkState (mainView s) (blogView s) (posts s) v (userId s) (newPost s)
    (editingPost s) (showDeleteModal s) (postToDelete s) (isMobileMenuOpen s)
    (db s) (auth s).
Definition setUserId (v : option string) (s : State) : State :=
  mkState (mainView s) (blogView s) (posts s) (isAuthReady s) v (newPost s)
    (editingPost s) (showDeleteModal s) (postToDelete s) (isMobileMenuOpen s)
    (db s) (auth s).
Definition setNewPost (v : Obj) (s : State) : State :=
  mkState (mainView s) (blogView s) (posts s) (isAuthReady s) (userId s) v
    (editingPost s) (showDeleteModal s) (postToDelete s) (isMobileMenuOpen s)
    (db s) (auth s).
Definition setEditingPost (v : option Obj) (s : State) : State :=
  mkState (mainView s) (blogView s) (posts s) (isAuthReady s) (userId s)
    (newPost s) v (showDeleteModal s) (postToDelete s) (isMobileMenuOpen s)
    (db s) (auth s).
Definition setShowDeleteModal (v : bool) (s : State) : State :=
  mkState (mainView s) (blogView s) (posts s) (isAuthReady s) (userId s)
    (newPost s) (editingPost s) v (postToDelete s) (isMobileMenuOpen s)
    (db s) (auth s).
Definition setPostToDelete (v : option Obj) (s : State) : State :=
  mkState (mainView s) (blogView s) (posts s) (isAuthReady s) (userId s)
    (newPost s) (editingPost s) (showDeleteModal s) v (isMobileMenuOpen s)
    (db s) (auth s).
Definition setIsMobileMenuOpen (v : bool) (s : State) : State :=
  mkState (mainView s) (blogView s) (posts s) (isAuthReady s) (userId s)
    (newPost s) (editingPost s) (showDeleteModal s) (postToDelete s) v
    (db s) (auth s).
Definition setDb (v : option Firestore) (s : State) : State :=
  mkState (mainView s) (blogView s) (posts s) (isAuthReady s) (userId s)
    (newPost s) (editingPost s) (showDeleteModal s) (postToDelete s)
    (isMobileMenuOpen s) v (auth s).
Definition setAuth (v : option Auth) (s : State) : State :=
  mkState (mainView s) (blogView s) (posts s) (isAuthReady s) (userId s)
    (newPost s) (editingPost s) (showDeleteModal s) (postToDelete s)
    (isMobileMenuOpen s) (db s) v.

(** ** The environment *)

(** What [JSON.parse(__firebase_config)] followed by [Object.keys] yields:
    an exception, an object without keys, or a configuration, for which the
    SDK constructors either succeed or throw. *)
Inductive ConfigJson :=
  | cfg_throws
  | cfg_no_keys
  | cfg_keys (sdk_ok : bool).

(** The three globals the page may or may not define. *)
Record Globals := mkGlobals {
  __firebase_config : option ConfigJson;
  __app_id : option string;
  __initial_auth_token : option string
}.

(** [typeof __app_id !== 'undefined' ? __app_id : 'default-app-id'] *)
Definition appId (g : Globals) : string :=
  default "default-app-id" (__app_id g).

(** ** Effects *)

(** SDK calls and console output, named after the functions called. *)
Inductive Effect :=
  | console_error (msg : string)
  | initializeApp
  | onAuthStateChanged
  | signInAnonymously
  | signInWithCustomToken (token : string)
  | onSnapshot (path : string)
  | unsubscribe (path : string)
  | addDoc (path : string) (fields : Obj)
  | updateDoc (path : string) (fields : Obj)
  | deleteDoc (path : string)
  | unhandled_rejection
  | uncaught_error
  | unsubscribeAuth.

#[global] Instance Effect_eq_dec : EqDecision Effect.
Proof. solve_decision. Defined.

(** The promise an [async] function is suspended on. *)
Inductive Await :=
  | await_addDoc
  | await_updateDoc
  | await_deleteDoc
  | await_signInAnonymously
  | await_signInWithCustomToken.

#[global] Instance Await_eq_dec : EqDecision Await.
Proof. solve_decision. Defined.

(** How a promise settles: with a value (a uid, a document id) or with an
    error. *)
Inductive Outcome :=
  | resolved (value : string)
  | rejected (error : string).

(** One synchronous run of a handler: the state it leaves, what it did, and
    the promise it is left waiting for, if any. *)
Record Turn := mkTurn {
  next : State;
  did : list Effect;
  awaits : option Await
}.

Definition isWrite (e : Effect) : bool :=
  match e with
  | addDoc _ _ | updateDoc _ _ | deleteDoc _ => true
  | _ => false
  end.

Definition isSubscribe (e : Effect) : bool :=
  match e with
  | onSnapshot _ => true
  | _ => false
  end.

(** ** Paths *)

(** [`artifacts/${appId}/users/${userId}/blogPosts`]; a [null] user id is
    rendered as the text [null]. *)
Definition postsCollectionPath (g : Globals) (s : State) : string :=
  "artifacts/" +:+ appId g +:+ "/users/" +:+ default "null" (userId s)
    +:+ "/blogPosts".

(** [`artifacts/${appId}/users/${userId}/blogPosts/${postId}`]; an
    [undefined] post id is rendered as the text [undefined]. *)
Definition postsDocPath (g : Globals) (s : State) (postId : option string)
    : string :=
  postsCollectionPath g s +:+ "/" +:+ default "undefined" postId.

(** ** References as the Firestore SDK builds them

    [collection(db, path)] and [doc(db, path)] throw unless [db] is a
    Firestore instance; they throw on a path that is empty or contains
    [//]; they split the path at its slashes, drop the empty pieces (so a
    leading or trailing slash is ignored) and count what is left: a
    collection has an odd number of segments, a document an even number,
    and any other count makes them throw. *)

(** [path.split('/')] *)
Fixpoint splitSlash (s : string) : list string :=
  match s with
  | EmptyString => [""]
  | String c s' =>
      if bool_decide (c = "/"%char) then "" :: splitSlash s'
      else
        match splitSlash s' with
        | seg :: rest => String c seg :: rest
        | [] => [String c ""]
        end
  end.

(** [path.split('/').filter(segment => segment.length > 0)] *)
Definition segments (path : string) : list string :=
  filter (λ seg, seg ≠ "") (splitSlash path).

(** [path.indexOf('//') >= 0] *)
Fixpoint hasDoubleSlash (s : string) : bool :=
  match s with
  | String c1 (String c2 _ as s') =>
      bool_decide (c1 = "/"%char) && bool_decide (c2 = "/"%char)
      || hasDoubleSlash s'
  | _ => false
  end.

Definition collectionPathOk (path : string) : bool :=
  negb (bool_decide (path = "")) && negb (hasDoubleSlash path)
  && Nat.odd (length (segments path)).

Definition documentPathOk (path : string) : bool :=
  negb (bool_decide (path = "")) && negb (hasDoubleSlash path)
  && Nat.even (length (segments path)).

(** [collection(db, path)]: the reference, [None] when the call throws. *)
Definition collection (db : option Firestore) (path : string)
    : option string :=
  match db with
  | Some _ => if collectionPathOk path then Some path else None
  | None => None
  end.

(** [doc(db, path)]: the reference, [None] when the call throws. *)
Definition doc (db : option Firestore) (path : string) : option string :=
  match db with
  | Some _ => if documentPathOk path then Some path else None
  | None => None
  end.

(** ** The posts listener *)

(** One run of the body of the second [useEffect]: nothing when the guard
    [isAuthReady && userId && db] fails; otherwise [collection] is called,
    outside any [try], and either throws or gives the reference that
    [onSnapshot] listens to. *)
Inductive EffectRun :=
  | eff_skip
  | eff_throw
  | eff_listen (path : string).

Definition postsEffect (g : Globals) (s : State) : EffectRun :=
  if isAuthReady s && truthy (userId s) && bool_decide (is_Some (db s))
  then
    match collection (db s) (postsCollectionPath g s) with
    | Some ref => eff_listen ref
    | None => eff_throw
    end
  else eff_skip.

(** The path the effect subscribes to, if it subscribes. *)
Definition postsListener (g : Globals) (s : State) : option string :=
  match postsEffect g s with
  | eff_listen ref => Some ref
  | _ => None
  end.

(** First callback of [onSnapshot]. *)
Definition onSnapshotNext (snapshot : list QueryDocumentSnapshot) (s : State)
    : State :=
  setPosts (fetchedPosts snapshot) s.

(** Second callback of [onSnapshot]. *)
Definition onSnapshotError (s : State) : State * list Effect :=
  (s, [console_error "Failed to fetch blog posts: "]).

(** ** CRUD callbacks *)

Definition createPost (g : Globals) (now : Z) (s : State) : Turn :=
  if negb (truthy (title (newPost s))) || negb (truthy (content (newPost s)))
  then mkTurn s [console_error "Title and content cannot be empty."] None
  else
    match collection (db s) (postsCollectionPath g s) with
    | None => mkTurn s [console_error "Error adding document: "] None
    | Some ref =>
        mkTurn s
          [addDoc ref
             {| id := None;
                title := title (newPost s);
                content := content (newPost s);
                author := Some "Murad Amin";
                timestamp := Some now |}]
          (Some await_addDoc)
    end.

Definition updatePost (g : Globals) (postId : option string) (s : State)
    : Turn :=
  match editingPost s with
  | None => mkTurn s [unhandled_rejection] None
  | Some e =>
      if negb (truthy (title e)) || negb (truthy (content e))
      then mkTurn s [console_error "Title and content cannot be empty."] None
      else
        match doc (db s) (postsDocPath g s postId) with
        | None => mkTurn s [console_error "Error updating document: "] None
        | Some ref =>
            mkTurn s
              [updateDoc ref
                 {| id := None;
                    title := title e;
                    content := content e;
                    author := None;
                    timestamp := None |}]
              (Some await_updateDoc)
        end
  end.

Definition deletePost (g : Globals) (s : State) : Turn :=
  match postToDelete s with
  | None => mkTurn s [] None
  | Some p =>
      match doc (db s) (postsDocPath g s (id p)) with
      | None => mkTurn s [console_error "Error deleting document: "] None
      | Some ref => mkTurn s [deleteDoc ref] (Some await_deleteDoc)
      end
  end.

Definition showDeleteConfirmation (post : Obj) (s : State) : State :=
  setShowDeleteModal true (setPostToDelete (Some post) s).

(** ** Identity bootstrap *)

(** Callback of [onAuthStateChanged], up to its [await]. *)
Definition authStateChanged (user : option string) (s : State) : Turn :=
  match user with
  | Some uid => mkTurn (setIsAuthReady true (setUserId (Some uid) s)) [] None
  | None => mkTurn s [signInAnonymously] (Some await_signInAnonymously)
  end.

(** Body of the first [useEffect]. The boolean tells whether the
    [onAuthStateChanged] listener got registered. *)
Definition initFirebase (g : Globals) (s : State) : Turn * bool :=
  match __firebase_config g with
  | Some cfg_throws =>
      (mkTurn s [console_error "Firebase initialization failed:"] None, false)
  | None | Some cfg_no_keys =>
      (mkTurn s
         [console_error
            "Firebase config is not available. Please check your environment."]
         None, false)
  | Some (cfg_keys false) =>
      (mkTurn s [initializeApp; console_error "Firebase initialization failed:"]
         None, false)
  | Some (cfg_keys true) =>
      let s' := setAuth (Some firebaseAuth) (setDb (Some firestore) s) in
      if truthy (__initial_auth_token g)
      then (mkTurn s'
              [initializeApp; onAuthStateChanged;
               signInWithCustomToken (default "" (__initial_auth_token g))]
              (Some await_signInWithCustomToken), true)
      else (mkTurn s' [initializeApp; onAuthStateChanged] None, true)
  end.

(** ** Continuations

    What runs after the [await] once the promise has settled. It runs on
    the state of that moment; it only calls setters and [console.error]. *)
Definition settle (a : Await) (o : Outcome) (s : State)
    : State * list Effect :=
  match a, o with
  | await_addDoc, resolved _ => (setNewPost blankPost s, [])
  | await_addDoc, rejected _ =>
      (s, [console_error "Error adding document: "])
  | await_updateDoc, resolved _ => (setEditingPost None s, [])
  | await_updateDoc, rejected _ =>
      (s, [console_error "Error updating document: "])
  | await_deleteDoc, resolved _ =>
      (setPostToDelete None (setShowDeleteModal false s), [])
  | await_deleteDoc, rejected _ =>
      (s, [console_error "Error deleting document: "])
  | await_signInAnonymously, resolved uid =>
      (setIsAuthReady true (setUserId (Some uid) s), [])
  | await_signInAnonymously, rejected _ =>
      (setIsAuthReady true s, [console_error "Anonymous sign-in failed: "])
  | await_signInWithCustomToken, resolved _ => (s, [])
  | await_signInWithCustomToken, rejected _ =>
      (s, [console_error "Custom token sign-in failed:"])
  end.

(** A callback run to completion, its promise settling as [o] with nothing
    in between. *)
Definition complete (t : Turn) (o : Outcome) : State * list Effect :=
  match awaits t with
  | None => (next t, did t)
  | Some a => let '(s, es) := settle a o (next t) in (s, did t ++ es)
  end.

(** ** Input handlers of the admin panel and the navigation *)

(** [onChange] of the title input. *)
Definition onTitleChange (v : string) (s : State) : State :=
  match editingPost s with
  | Some e =>
      setEditingPost (Some (spread e (mkObj None (Some v) None None None))) s
  | None =>
      setNewPost (spread (newPost s) (mkObj None (Some v) None None None)) s
  end.

(** [onChange] of the content textarea. *)
Definition onContentChange (v : string) (s : State) : State :=
  match editingPost s with
  | Some e =>
      setEditingPost (Some (spread e (mkObj None None (Some v) None None))) s
  | None =>
      setNewPost (spread (newPost s) (mkObj None None (Some v) None None)) s
  end.

(** [onClick] of the Home and Blog buttons. *)
Definition onNavigate (v : MainView) (s : State) : State :=
  setIsMobileMenuOpen false (setMainView v s).

(** ** The running page

    Around the component state: the Firestore listener the second effect
    holds, whether the auth listener is registered, and the promises still
    in flight. *)

(** The listener behind the cleanup function of the posts effect. Firestore
    delivers nothing more to a listener once it has reported an error to it,
    while the cleanup function stays registered. When the body of the
    effect has thrown, React has unmounted the component: there is no
    listener, nothing is rendered and no effect runs again. *)
Inductive Feed :=
  | feed_none
  | feed_open (path : string)
  | feed_errored (path : string)
  | feed_threw.

Record Session := mkSession {
  ui : State;
  feed : Feed;
  authListener : bool;
  inflight : list Await
}.

(** What can happen to the page: callbacks of the SDK and clicks. *)
Inductive Event :=
  | ev_authStateChanged (user : option string)
  | ev_settled (i : nat) (o : Outcome)
  | ev_snapshot (docs : list QueryDocumentSnapshot)
  | ev_snapshotError
  | ev_navigate (v : MainView)
  | ev_toggleMenu
  | ev_closeMenu
  | ev_setBlogView (v : BlogView)
  | ev_typeTitle (v : string)
  | ev_typeContent (v : string)
  | ev_clickEdit (post : Obj)
  | ev_cancelEdit
  | ev_clickCreate (now : Z)
  | ev_clickUpdate
  | ev_clickDelete (post : Obj)
  | ev_confirmDelete
  | ev_cancelDelete.

(** The blog view is rendered once [isAuthReady] holds and the Blog tab is
    selected; the admin panel inside it on the Admin tab. *)
Definition blogRendered (s : State) : bool :=
  isAuthReady s && bool_decide (mainView s = blog).

Definition adminRendered (s : State) : bool :=
  blogRendered s && bool_decide (blogView s = admin).

Definition feedOpen (f : Feed) : bool :=
  match f with
  | feed_open _ => true
  | _ => false
  end.

Definition unmounted (f : Feed) : bool :=
  match f with
  | feed_threw => true
  | _ => false
  end.

(** Which events the page can receive in a given state: a button must be
    rendered to be clicked, a listener registered to be called; a promise
    in flight settles whether or not the component is still mounted. *)
Definition enabled (x : Session) (e : Event) : bool :=
  match e with
  | ev_settled i _ => bool_decide (is_Some (inflight x !! i))
  | ev_snapshot _ | ev_snapshotError => feedOpen (feed x)
  | _ =>
      negb (unmounted (feed x))
      && match e with
         | ev_authStateChanged _ => authListener x
         | ev_setBlogView _ => blogRendered (ui x)
         | ev_typeTitle _ | ev_typeContent _ => adminRendered (ui x)
         | ev_clickEdit p | ev_clickDelete p =>
             adminRendered (ui x) && bool_decide (p ∈ posts (ui x))
         | ev_cancelEdit | ev_clickUpdate =>
             adminRendered (ui x)
             && bool_decide (is_Some (editingPost (ui x)))
         | ev_clickCreate _ =>
             adminRendered (ui x) && bool_decide (editingPost (ui x) = None)
         | ev_confirmDelete | ev_cancelDelete => showDeleteModal (ui x)
         | _ => true
         end
  end.

(** The outcome of handling one event, before effects are re-run. *)
Record Reaction := mkReaction {
  r_state : State;
  r_did : list Effect;
  r_inflight : list Await;
  r_feed : Feed
}.

Definition ofTurn (x : Session) (t : Turn) : Reaction :=
  mkReaction (next t) (did t) (inflight x ++ option_list (awaits t)) (feed x).

Definition ofState (x : Session) (s : State) : Reaction :=
  mkReaction s [] (inflight x) (feed x).

Definition react (g : Globals) (x : Session) (e : Event) : Reaction :=
  let s := ui x in
  match e with
  | ev_authStateChanged user => ofTurn x (authStateChanged user s)
  | ev_settled i o =>
      match inflight x !! i with
      | Some a =>
          let '(s', es) := settle a o s in
          mkReaction s' es (delete i (inflight x)) (feed x)
      | None => ofState x s
      end
  | ev_snapshot docs => ofState x (onSnapshotNext docs s)
  | ev_snapshotError =>
      let '(s', es) := onSnapshotError s in
      mkReaction s' es (inflight x)
        match feed x with
        | feed_open p => feed_errored p
        | f => f
        end
  | ev_navigate v => ofState x (onNavigate v s)
  | ev_toggleMenu =>
      ofState x (setIsMobileMenuOpen (negb (isMobileMenuOpen s)) s)
  | ev_closeMenu => ofState x (setIsMobileMenuOpen false s)
  | ev_setBlogView v => ofState x (setBlogView v s)
  | ev_typeTitle v => ofState x (onTitleChange v s)
  | ev_typeContent v => ofState x (onContentChange v s)
  | ev_clickEdit post => ofState x (setEditingPost (Some post) s)
  | ev_cancelEdit => ofState x (setEditingPost None s)
  | ev_clickCreate now => ofTurn x (createPost g now s)
  | ev_clickUpdate =>
      ofTurn x (updatePost g (from_option id None (editingPost s)) s)
  | ev_clickDelete post => ofState x (showDeleteConfirmation post s)
  | ev_confirmDelete => ofTurn x (deletePost g s)
  | ev_cancelDelete => ofState x (setShowDeleteModal false s)
  end.

(** The dependency array [[isAuthReady, userId, db]] of the posts effect. *)
Definition listenerDeps (s : State) : bool * option string * option Firestore :=
  (isAuthReady s, userId s, db s).

(** Re-running the posts effect after a render: when a dependency changed,
    the previous cleanup runs, then the body. When the body throws, the
    error reaches no error boundary and React unmounts the component, which
    runs the cleanup of the first effect if that one had registered its
    listener ([registered]). An unmounted component runs no effect. *)
Definition syncListener (g : Globals) (registered : bool) (old new : State)
    (f : Feed) : Feed * list Effect :=
  if unmounted f then (f, [])
  else if bool_decide (listenerDeps old = listenerDeps new) then (f, [])
  else
    let cleanup :=
      match f with
      | feed_open p | feed_errored p => [unsubscribe p]
      | _ => []
      end in
    match postsEffect g new with
    | eff_skip => (feed_none, cleanup)
    | eff_listen p => (feed_open p, cleanup ++ [onSnapshot p])
    | eff_throw =>
        (feed_threw,
         cleanup ++ uncaught_error
         :: (if registered then [unsubscribeAuth] else []))
    end.

(** One event. The cells of an unmounted component are gone; the record is
    kept as it was and continuations still in flight go on writing to it,
    which no event can observe any more. *)
Definition step (g : Globals) (x : Session) (e : Event)
    : Session * list Effect :=
  if enabled x e then
    let r := react g x e in
    let '(f, es) :=
      syncListener g (authListener x) (ui x) (r_state r) (r_feed r) in
    (mkSession (r_state r) f (authListener x) (r_inflight r), r_did r ++ es)
  else (x, []).

(** Mounting: both effects run on the initial state (where the guard of the
    posts effect is false), then the posts effect again for the handles the
    first effect has set. *)
Definition mount (g : Globals) : Session * list Effect :=
  let '(t, registered) := initFirebase g initialState in
  let '(f, es) := syncListener g registered initialState (next t) feed_none in
  (mkSession (next t) f registered (option_list (awaits t)), did t ++ es).

Fixpoint run (g : Globals) (x : Session) (es : list Event)
    : Session * list Effect :=
  match es with
  | [] => (x, [])
  | e :: es' =>
      let '(x', out) := step g x e in
      let '(x'', out') := run g x' es' in
      (x'', out ++ out')
  end.

(** A page state is reachable when some sequence of events leads to it from
    the mount. *)
Definition reachable (g : Globals) (x : Session) : Prop :=
  ∃ es, (run g (mount g).1 es).1 = x.

(** ** Notions used in the statements *)

(** The key the comparator orders by: the timestamp, [0] when absent. *)
Definition timeOf (p : Obj) : Z := orZero (timestamp p).

(** The ordering key in the words of the specification: the timestamp of a
    post, a post without one counting as if its timestamp were 0. *)
Definition timestampOrZero (p : Obj) : Z :=
  match timestamp p with
  | Some n => n
  | None => 0
  end.

(** A piece of text that makes one path segment whatever stands around it:
    not empty and without a slash. *)
Fixpoint noSlash (s : string) : bool :=
  match s with
  | EmptyString => true
  | String c s' => negb (bool_decide (c = "/"%char)) && noSlash s'
  end.

Definition plainSegment (s : string) : bool :=
  negb (bool_decide (s = "")) && noSlash s.

(** What a run of the posts effect leaves as the listener held. *)
Definition feedOf (r : EffectRun) : option string :=
  match r with
  | eff_listen p => Some p
  | _ => None
  end.

Abbreviation noSubscribe := (Forall (λ o, isSubscribe o = false)).

(** Events that hand the page an identity: the auth listener called with a
    user, or the anonymous sign-in resolving. *)
Definition identifies (x : Session) (e : Event) : bool :=
  match e with
  | ev_authStateChanged (Some _) => true
  | ev_settled i (resolved _) =>
      bool_decide (inflight x !! i = Some await_signInAnonymously)
  | _ => false
  end.

(** A run in which identity is never established. *)
Fixpoint authFails (g : Globals) (x : Session) (es : list Event) : bool :=
  match es with
  | [] => true
  | e :: es' => negb (identifies x e) && authFails g (step g x e).1 es'
  end.

(** Either the first effect has set [db], or the page is inert: no auth
    listener, nothing in flight, still loading, no prompt. *)
Definition wired (x : Session) : Prop :=
  is_Some (db (ui x)) ∨
  (authListener x = false ∧ inflight x = [] ∧
   isAuthReady (ui x) = false ∧ showDeleteModal (ui x) = false).

(** ** Sample data *)

Definition sampleGlobals : Globals := mkGlobals (Some (cfg_keys true)) None None.

Definition sampleDoc (i : string) (ts : option Z) : QueryDocumentSnapshot :=
  mkDoc i (mkObj None (Some "Hi") (Some "World") (Some "Murad Amin") ts).

(** A signed-in visitor opens the admin panel of the blog. *)
Definition toAdminPanel : list Event :=
  [ev_authStateChanged (Some "u1"); ev_navigate blog; ev_setBlogView admin].

Definition atAdminPanel : Session :=
  (run sampleGlobals (mount sampleGlobals).1 toAdminPanel).1.

(** ... and types a draft made of blanks only. *)
Definition toBlankDraft : list Event :=
  toAdminPanel ++ [ev_typeTitle " "; ev_typeContent "  "].

Definition atBlankDraft : Session :=
  (run sampleGlobals (mount sampleGlobals).1 toBlankDraft).1.

(** ... or leaves the title empty. *)
Definition toUntitledDraft : list Event :=
  toAdminPanel ++ [ev_typeContent "World"].

Definition atUntitledDraft : Session :=
  (run sampleGlobals (mount sampleGlobals).1 toUntitledDraft).1.

(** ... or receives one post and starts editing it. *)
Definition toEditing : list Event :=
  toAdminPanel ++
  [ev_snapshot [sampleDoc "a" (Some 100)];
   ev_clickEdit (toPost (sampleDoc "a" (Some 100)));
   ev_typeTitle "Hello"].

Definition atEditing : Session :=
  (run sampleGlobals (mount sampleGlobals).1 toEditing).1.

(** ... or receives one post and asks to delete it. *)
Definition toDeletePrompt : list Event :=
  toAdminPanel ++
  [ev_snapshot [sampleDoc "a" (Some 100)];
   ev_clickDelete (toPost (sampleDoc "a" (Some 100)))].

Definition atDeletePrompt : Session :=
  (run sampleGlobals (mount sampleGlobals).1 toDeletePrompt).1.

(** A session in which the anonymous sign-in is refused. *)
Definition signInRefused : list Event :=
  [ev_authStateChanged None; ev_settled 0 (rejected "network-request-failed");
   ev_navigate blog; ev_setBlogView admin; ev_authStateChanged None;
   ev_settled 0 (rejected "network-request-failed")].

(** ** What the page shows *)

(** The content of [<main>]: the loading notice until [isAuthReady], then
    the view selected by [mainView]. *)
Inductive Screen :=
  | scr_loading
  | scr_home
  | scr_blog (v : BlogView).

Definition screen (s : State) : Screen :=
  if negb (isAuthReady s) then scr_loading
  else
    match mainView s with
    | home => scr_home
    | blog => scr_blog (blogView s)
    end.

(** ** Notions used in the further statements *)

(** The path the cleanup function of the posts effect would unsubscribe. *)
Definition feedPath (f : Feed) : option string :=
  match f with
  | feed_open p | feed_errored p => Some p
  | _ => None
  end.

Definition isUnsubscribe (e : Effect) : bool :=
  match e with
  | unsubscribe _ => true
  | _ => false
  end.

(** How many listeners a trace opens, and how many it closes. *)
Definition opened (out : list Effect) : nat :=
  length (filter (λ e, isSubscribe e = true) out).

Definition closed (out : list Effect) : nat :=
  length (filter (λ e, isUnsubscribe e = true) out).

(** [1] when the posts effect holds a cleanup function, [0] otherwise. *)
Definition holding (x : Session) : nat :=
  match feedPath (feed x) with
  | Some _ => 1%nat
  | None => 0%nat
  end.

(** The shape of the payloads the component hands to the store. *)
Definition wellFormedWrite (e : Effect) : bool :=
  match e with
  | addDoc _ f =>
      truthy (title f) && truthy (content f)
      && bool_decide (author f = Some "Murad Amin")
      && bool_decide (is_Some (timestamp f)) && bool_decide (id f = None)
  | updateDoc _ f =>
      truthy (title f) && truthy (content f)
      && bool_decide (author f = None)
      && bool_decide (timestamp f = None) && bool_decide (id f = None)
  | _ => true
  end.

Definition isTyping (e : Event) : bool :=
  match e with
  | ev_typeTitle _ | ev_typeContent _ => true
  | _ => false
  end.

(** The first effect gets as far as registering the auth listener only with
    a configuration that has keys and that the SDK accepts. *)
Definition usableConfig (g : Globals) : bool :=
  match __firebase_config g with
  | Some (cfg_keys true) => true
  | _ => false
  end.

(** More sample data: a page without configuration, and a visitor whose
    anonymous sign-in was refused and who types a draft all the same. *)
Definition noConfig : Globals := mkGlobals None None None.

Definition toNullIdentityDraft : list Event :=
  signInRefused ++ [ev_typeTitle "Hi"; ev_typeContent "World"].

Definition atNullIdentityDraft : Session :=
  (run sampleGlobals (mount sampleGlobals).1 toNullIdentityDraft).1.

Definition toHiWorldDraft : list Event :=
  toAdminPanel ++ [ev_typeTitle "Hi"; ev_typeContent "World"].

Definition atHiWorldDraft : Session :=
  (run sampleGlobals (mount sampleGlobals).1 toHiWorldDraft).1.

Definition toTwoPosts : list Event :=
  toAdminPanel
  ++ [ev_snapshot [sampleDoc "a" (Some 100); sampleDoc "b" (Some 200)]].

Definition atTwoPosts : Session :=
  (run sampleGlobals (mount sampleGlobals).1 toTwoPosts).1.

(** A post whose document lacks the content field, opened for editing. *)
Definition editingIncomplete : State :=
  setEditingPost (Some (mkObj (Some "a") (Some "Hi") None None (Some 100)))
    (ui atAdminPanel).

Definition isNavigation (e : Event) : bool :=
  match e with
  | ev_navigate _ | ev_toggleMenu | ev_closeMenu | ev_setBlogView _ => true
  | _ => false
  end.

(** A page whose [__app_id] is the empty string, a visitor whose anonymous
    sign-in was refused, and the draft Hi / World. *)
Definition emptyAppId : Globals :=
  mkGlobals (Some (cfg_keys true)) (Some "") None.

Definition atEmptyAppIdDraft : Session :=
  (run emptyAppId (mount emptyAppId).1 toNullIdentityDraft).1.

(** A page whose [__app_id] holds a slash, and a draft made of blanks. *)
Definition slashAppId : Globals :=
  mkGlobals (Some (cfg_keys true)) (Some "a/b") None.

Definition toNullIdentityBlankDraft : list Event :=
  signInRefused ++ [ev_typeTitle " "; ev_typeContent "  "].

Definition atSlashAppIdDraft : Session :=
  (run slashAppId (mount slashAppId).1 toNullIdentityBlankDraft).1.

(** A document whose data carries an [id] field of its own, the empty
    string, listed and picked for editing, or for deletion. *)
Definition shadowedDoc : QueryDocumentSnapshot :=
  mkDoc "a"
    (mkObj (Some "") (Some "Hi") (Some "World") (Some "Murad Amin") (Some 100)).

Definition toShadowedEdit : list Event :=
  toAdminPanel ++ [ev_snapshot [shadowedDoc]; ev_clickEdit (toPost shadowedDoc)].

Definition atShadowedEdit : Session :=
  (run sampleGlobals (mount sampleGlobals).1 toShadowedEdit).1.

Definition toShadowedDelete : list Event :=
  toAdminPanel
  ++ [ev_snapshot [shadowedDoc]; ev_clickDelete (toPost shadowedDoc)].

Definition atShadowedDelete : Session :=
  (run sampleGlobals (mount sampleGlobals).1 toShadowedDelete).1.


(** * Properties *)

(** ** Sorting with a comparator that subtracts keys *)

Section ArraySort.
Context {A : Type} (key : A → Z) (cmp : A → A → Z).
Hypothesis cmp_key : ∀ a b, cmp a b = key b - key a.

Lemma sort_insert_perm x l : sort_insert cmp x l ≡ₚ x :: l.
Proof.
  induction l as [|y l IH]; simpl; [done|].
  case_bool_decide; [done|].
  rewrite IH. apply Permutation_swap.
Qed.

Lemma array_sort_perm l : array_sort cmp l ≡ₚ l.
Proof.
  induction l as [|x l IH]; simpl; [done|].
  rewrite sort_insert_perm. by f_equiv.
Qed.

Lemma sort_insert_sorted x l :
  StronglySorted (λ a b, key b ≤ key a) l →
  StronglySorted (λ a b, key b ≤ key a) (sort_insert cmp x l).
Proof.
  induction 1 as [|y l Hl IH Hy]; simpl.
  - repeat constructor.
  - case_bool_decide as Hc; rewrite cmp_key in Hc.
    + constructor; [by constructor|].
      constructor; [lia|].
      eapply Forall_impl; [exact Hy|]. simpl. intros; lia.
    + constructor; [done|].
      rewrite sort_insert_perm. constructor; [lia|done].
Qed.

Lemma array_sort_sorted l :
  StronglySorted (λ a b, key b ≤ key a) (array_sort cmp l).
Proof.
  induction l as [|x l IH]; simpl; [constructor|].
  by apply sort_insert_sorted.
Qed.

(** Elements with one and the same key keep their order. *)
Lemma sort_insert_stable k x l :
  filter (λ a, key a = k) (sort_insert cmp x l)
  = filter (λ a, key a = k) (x :: l).
Proof.
  induction l as [|y l IH]; simpl; [done|].
  case_bool_decide as Hc; [done|]. rewrite cmp_key in Hc.
  rewrite (filter_cons _ y), IH, !filter_cons.
  repeat case_decide; try done; lia.
Qed.

Lemma array_sort_stable k l :
  filter (λ a, key a = k) (array_sort cmp l) = filter (λ a, key a = k) l.
Proof.
  induction l as [|x l IH]; simpl; [done|].
  by rewrite sort_insert_stable, !filter_cons, IH.
Qed.

(** With distinct keys, descending is strictly descending. *)
Lemma sorted_strict l :
  NoDup (key <$> l) →
  StronglySorted (λ a b, key b ≤ key a) l →
  StronglySorted (λ a b, key b < key a) l.
Proof.
  intros Hnd. induction 1 as [|x l Hl IH Hx]; [constructor|].
  rewrite fmap_cons in Hnd. apply NoDup_cons in Hnd as [Hnotin Hnd].
  constructor; [by apply IH|].
  apply Forall_forall. intros y Hy.
  rewrite Forall_forall in Hx. specialize (Hx y Hy). simpl in Hx.
  assert (key y ≠ key x); [|lia].
  intros Heq. apply Hnotin. rewrite <- Heq. by apply list_elem_of_fmap_2.
Qed.

Lemma array_sort_strict l :
  NoDup (key <$> l) →
  StronglySorted (λ a b, key b < key a) (array_sort cmp l).
Proof.
  intros Hnd. apply sorted_strict; [|apply array_sort_sorted].
  by rewrite array_sort_perm.
Qed.

(** A sorted list that keeps, key by key, the order of [l] is the one
    [array_sort] returns: the result does not depend on how the engine
    sorts, as long as it sorts stably. *)
Lemma stable_sorted_unique l1 l2 :
  l1 ≡ₚ l2 →
  StronglySorted (λ a b, key b ≤ key a) l1 →
  StronglySorted (λ a b, key b ≤ key a) l2 →
  (∀ k, filter (λ a, key a = k) l1 = filter (λ a, key a = k) l2) →
  l1 = l2.
Proof.
  revert l2. induction l1 as [|a l1 IH]; intros l2 Hp Hs1 Hs2 Hf.
  - by apply Permutation_nil_l in Hp.
  - destruct l2 as [|b l2]; [by apply Permutation_nil_r in Hp|].
    apply StronglySorted_inv in Hs1 as [Hs1 Ha].
    apply StronglySorted_inv in Hs2 as [Hs2 Hb].
    rewrite Forall_forall in Ha, Hb.
    assert (key a = key b) as Hk.
    { assert (a ∈ b :: l2) as Ha2 by (rewrite <- Hp; left).
      assert (b ∈ a :: l1) as Hb1 by (rewrite Hp; left).
      apply elem_of_cons in Ha2 as [->|Ha2]; [done|].
      apply elem_of_cons in Hb1 as [->|Hb1]; [done|].
      specialize (Ha _ Hb1). specialize (Hb _ Ha2). simpl in *. lia. }
    assert (a = b) as ->.
    { specialize (Hf (key a)). rewrite !filter_cons in Hf.
      rewrite decide_True in Hf by done.
      rewrite decide_True in Hf by done. congruence. }
    f_equal. apply IH; [by apply (inj (cons b))|done|done|].
    intros k. specialize (Hf k). rewrite !filter_cons in Hf.
    case_decide; [congruence|done].
Qed.

Lemma array_sort_unique l l' :
  l' ≡ₚ l →
  StronglySorted (λ a b, key b ≤ key a) l' →
  (∀ k, filter (λ a, key a = k) l' = filter (λ a, key a = k) l) →
  l' = array_sort cmp l.
Proof.
  intros Hp Hs Hf. apply stable_sorted_unique; [|done| |].
  - by rewrite array_sort_perm.
  - apply array_sort_sorted.
  - intros k. by rewrite array_sort_stable.
Qed.
End ArraySort.

(** Where in a list the elements of a filtered list sit. *)
Lemma filter_split_inv {A} (P : A → Prop) `{!∀ x, Decision (P x)}
    (l : list A) u x w :
  filter P l = u ++ x :: w →
  ∃ l1 l2, l = l1 ++ x :: l2 ∧ filter P l1 = u ∧ filter P l2 = w.
Proof.
  revert u. induction l as [|y l IH]; intros u Hf.
  - by destruct u.
  - rewrite filter_cons in Hf. case_decide as Hy.
    + destruct u as [|z u]; simpl in Hf; injection Hf as -> Hf.
      * exists [], l. by rewrite filter_nil.
      * destruct (IH _ Hf) as (l1 & l2 & -> & <- & <-).
        exists (z :: l1), l2. by rewrite filter_cons_True.
    + destruct (IH _ Hf) as (l1 & l2 & -> & <- & <-).
      exists (y :: l1), l2. by rewrite filter_cons_False.
Qed.

(** ** Paths made of plain segments *)

Lemma string_app_cons (x : ascii) (a b : string) :
  String x a +:+ b = String x (a +:+ b).
Proof. reflexivity. Qed.

Lemma string_app_nil (b : string) : "" +:+ b = b.
Proof. reflexivity. Qed.

Lemma string_app_assoc (a b c : string) : (a +:+ b) +:+ c = a +:+ b +:+ c.
Proof.
  induction a as [|x a IH]; [done|]. rewrite !string_app_cons. by f_equal.
Qed.

Lemma splitSlash_cons a rest :
  noSlash a = true →
  splitSlash (a +:+ String "/" rest) = a :: splitSlash rest.
Proof.
  induction a as [|c a IH]; [done|]. rewrite string_app_cons. simpl.
  intros [Hc Ha]%andb_true_iff. apply negb_true_iff in Hc. rewrite Hc.
  by rewrite IH.
Qed.

Lemma splitSlash_plain a : noSlash a = true → splitSlash a = [a].
Proof.
  induction a as [|c a IH]; simpl; [done|].
  intros [Hc Ha]%andb_true_iff. apply negb_true_iff in Hc. rewrite Hc.
  by rewrite IH.
Qed.

Lemma segments_cons a rest :
  plainSegment a = true →
  segments (a +:+ String "/" rest) = a :: segments rest.
Proof.
  intros [Hne Ha]%andb_true_iff. unfold segments.
  rewrite splitSlash_cons by done. rewrite filter_cons_True; [done|].
  apply negb_true_iff in Hne. by apply bool_decide_eq_false in Hne.
Qed.

Lemma segments_plain a : plainSegment a = true → segments a = [a].
Proof.
  intros [Hne Ha]%andb_true_iff. unfold segments.
  rewrite splitSlash_plain by done. rewrite filter_cons_True; [done|].
  apply negb_true_iff in Hne. by apply bool_decide_eq_false in Hne.
Qed.

Lemma hasDoubleSlash_eq c1 c2 s :
  hasDoubleSlash (String c1 (String c2 s))
  = bool_decide (c1 = "/"%char) && bool_decide (c2 = "/"%char)
    || hasDoubleSlash (String c2 s).
Proof. reflexivity. Qed.

Lemma hasDoubleSlash_skip c1 c2 s :
  c1 ≠ "/"%char →
  hasDoubleSlash (String c1 (String c2 s)) = hasDoubleSlash (String c2 s).
Proof.
  intros Hc. rewrite hasDoubleSlash_eq, (bool_decide_eq_false_2 _ Hc).
  by rewrite andb_false_l, orb_false_l.
Qed.

Lemma noSlash_cons c a :
  noSlash (String c a) = true ↔ c ≠ "/"%char ∧ noSlash a = true.
Proof.
  change (noSlash (String c a))
    with (negb (bool_decide (c = "/"%char)) && noSlash a).
  rewrite andb_true_iff, negb_true_iff, bool_decide_eq_false. done.
Qed.

Lemma hasDoubleSlash_cons a rest :
  plainSegment a = true →
  hasDoubleSlash (a +:+ String "/" rest) = hasDoubleSlash (String "/" rest).
Proof.
  intros [Hne Ha]%andb_true_iff. destruct a as [|c a]; [done|]. clear Hne.
  revert c Ha. induction a as [|c' a IH]; intros c [Hc Ha]%noSlash_cons.
  - rewrite string_app_cons, string_app_nil. by apply hasDoubleSlash_skip.
  - rewrite !string_app_cons, hasDoubleSlash_skip by done.
    rewrite <- string_app_cons. by apply IH.
Qed.

Lemma hasDoubleSlash_slash a :
  plainSegment a = true → ∀ rest,
  hasDoubleSlash (String "/" (a +:+ rest)) = hasDoubleSlash (a +:+ rest).
Proof.
  intros [Hne Ha]%andb_true_iff rest. destruct a as [|c a]; [done|].
  apply noSlash_cons in Ha as [Hc _].
  rewrite string_app_cons, hasDoubleSlash_eq, (bool_decide_eq_false_2 _ Hc).
  by rewrite andb_false_r, orb_false_l.
Qed.

Lemma hasDoubleSlash_plain a : noSlash a = true → hasDoubleSlash a = false.
Proof.
  destruct a as [|c a]; [done|]. revert c.
  induction a as [|c' a IH]; intros c [Hc Ha]%noSlash_cons; [done|].
  rewrite hasDoubleSlash_skip by done. by apply IH.
Qed.

Lemma hasDoubleSlash_last a :
  plainSegment a = true → hasDoubleSlash (String "/" a) = false.
Proof.
  intros [Hne Ha]%andb_true_iff. destruct a as [|c a]; [done|].
  pose proof (hasDoubleSlash_plain _ Ha) as Hplain.
  apply noSlash_cons in Ha as [Hc _].
  rewrite hasDoubleSlash_eq, (bool_decide_eq_false_2 _ Hc), Hplain.
  by rewrite andb_false_r.
Qed.

Lemma postsCollectionPath_segments g s :
  postsCollectionPath g s
  = "artifacts"
    +:+ String "/"
          (appId g
           +:+ String "/"
                 ("users"
                  +:+ String "/"
                        (default "null" (userId s)
                         +:+ String "/" "blogPosts"))).
Proof. reflexivity. Qed.

Lemma postsDocPath_segments g s pid :
  postsDocPath g s pid
  = "artifacts"
    +:+ String "/"
          (appId g
           +:+ String "/"
                 ("users"
                  +:+ String "/"
                        (default "null" (userId s)
                         +:+ String "/"
                               ("blogPosts"
                                +:+ String "/" (default "undefined" pid))))).
Proof.
  unfold postsDocPath, postsCollectionPath. by rewrite !string_app_assoc.
Qed.

(** The SDK accepts the paths of the component whenever the pieces put into
    them are plain segments. *)
Lemma collectionPathOk_plain g s :
  plainSegment (appId g) = true →
  plainSegment (default "null" (userId s)) = true →
  collectionPathOk (postsCollectionPath g s) = true.
Proof.
  intros Ha Hu. unfold collectionPathOk.
  rewrite postsCollectionPath_segments.
  rewrite !segments_cons, segments_plain by done.
  rewrite hasDoubleSlash_cons, hasDoubleSlash_slash by done.
  rewrite hasDoubleSlash_cons by done.
  rewrite (hasDoubleSlash_slash "users") by done.
  rewrite hasDoubleSlash_cons, hasDoubleSlash_slash by done.
  rewrite hasDoubleSlash_cons by done.
  by rewrite (hasDoubleSlash_last "blogPosts").
Qed.

Lemma documentPathOk_plain g s pid :
  plainSegment (appId g) = true →
  plainSegment (default "null" (userId s)) = true →
  plainSegment (default "undefined" pid) = true →
  documentPathOk (postsDocPath g s pid) = true.
Proof.
  intros Ha Hu Hp. unfold documentPathOk.
  rewrite postsDocPath_segments.
  rewrite !segments_cons, segments_plain by done.
  rewrite hasDoubleSlash_cons, hasDoubleSlash_slash by done.
  rewrite hasDoubleSlash_cons by done.
  rewrite (hasDoubleSlash_slash "users") by done.
  rewrite hasDoubleSlash_cons, hasDoubleSlash_slash by done.
  rewrite hasDoubleSlash_cons by done.
  rewrite (hasDoubleSlash_slash "blogPosts") by done.
  rewrite hasDoubleSlash_cons by done.
  by rewrite hasDoubleSlash_last.
Qed.

(** ** The callbacks, one at a time *)

Lemma updateDoc_inj path f path' f' :
  updateDoc path f = updateDoc path' f' → f = f'.
Proof. by intros [= _ ->]. Qed.

Lemma byTimestampDesc_key a b : byTimestampDesc a b = timeOf b - timeOf a.
Proof. reflexivity. Qed.

Lemma timestamp_toPost d : timestamp (toPost d) = timestamp (doc_data d).
Proof. unfold toPost, spread. simpl. by destruct (timestamp (doc_data d)). Qed.

Lemma posts_onSnapshotNext docs s :
  posts (onSnapshotNext docs s) = fetchedPosts docs.
Proof. reflexivity. Qed.

(** The listener replaces the list as a whole: what was there before does
    not matter. *)
Lemma onSnapshotNext_replaces docs s s' :
  posts (onSnapshotNext docs s) = posts (onSnapshotNext docs s').
Proof. reflexivity. Qed.

Lemma truthy_Some s : truthy (Some s) = true ↔ s ≠ "".
Proof. simpl. by rewrite bool_decide_eq_true. Qed.

Lemma truthy_nonempty s : s ≠ "" → truthy (Some s) = true.
Proof. apply truthy_Some. Qed.

Lemma truthy_inv v : truthy v = true → ∃ s, v = Some s ∧ s ≠ "".
Proof. destruct v as [s|]; [|done]. intros H. exists s. by apply truthy_Some in H. Qed.

(** None of the three callbacks touches a state cell in its own turn. *)
Lemma next_createPost g now s : next (createPost g now s) = s.
Proof. unfold createPost. by repeat case_match. Qed.

Lemma next_updatePost g postId s : next (updatePost g postId s) = s.
Proof. unfold updatePost. by repeat case_match. Qed.

Lemma next_deletePost g s : next (deletePost g s) = s.
Proof. unfold deletePost. by repeat case_match. Qed.

Lemma collection_Some db path ref :
  collection db path = Some ref ↔
  is_Some db ∧ collectionPathOk path = true ∧ ref = path.
Proof.
  unfold collection. destruct db as [d|], (collectionPathOk path);
    (split; [intros [= <-]|intros ([? ?] & ? & ->)]); by eauto.
Qed.

Lemma doc_Some db path ref :
  doc db path = Some ref ↔
  is_Some db ∧ documentPathOk path = true ∧ ref = path.
Proof.
  unfold doc. destruct db as [d|], (documentPathOk path);
    (split; [intros [= <-]|intros ([? ?] & ? & ->)]); by eauto.
Qed.

Lemma collection_ok d path :
  collectionPathOk path = true → collection (Some d) path = Some path.
Proof. unfold collection. by intros ->. Qed.

Lemma doc_ok d path :
  documentPathOk path = true → doc (Some d) path = Some path.
Proof. unfold doc. by intros ->. Qed.

Lemma collection_refused db path :
  collectionPathOk path = false → collection db path = None.
Proof. unfold collection. intros ->. by destruct db. Qed.

Lemma doc_refused db path :
  documentPathOk path = false → doc db path = None.
Proof. unfold doc. intros ->. by destruct db. Qed.

Lemma createPost_valid g now s d t c :
  db s = Some d → title (newPost s) = Some t → content (newPost s) = Some c →
  t ≠ "" → c ≠ "" →
  collectionPathOk (postsCollectionPath g s) = true →
  createPost g now s
  = mkTurn s
      [addDoc (postsCollectionPath g s)
         (mkObj None (Some t) (Some c) (Some "Murad Amin") (Some now))]
      (Some await_addDoc).
Proof.
  intros Hdb Htitle Hcontent Ht Hc Hok. unfold createPost.
  by rewrite Htitle, Hcontent, Hdb, collection_ok, !truthy_nonempty by done.
Qed.

Lemma createPost_refused g now s :
  truthy (title (newPost s)) = true → truthy (content (newPost s)) = true →
  collectionPathOk (postsCollectionPath g s) = false →
  createPost g now s
  = mkTurn s [console_error "Error adding document: "] None.
Proof.
  intros Ht Hc Hbad. unfold createPost.
  by rewrite Ht, Hc, collection_refused.
Qed.

Lemma updatePost_valid g postId s d e :
  db s = Some d → editingPost s = Some e →
  truthy (title e) = true → truthy (content e) = true →
  documentPathOk (postsDocPath g s postId) = true →
  updatePost g postId s
  = mkTurn s
      [updateDoc (postsDocPath g s postId)
         (mkObj None (title e) (content e) None None)]
      (Some await_updateDoc).
Proof.
  intros Hdb He Ht Hc Hok. unfold updatePost.
  by rewrite He, Ht, Hc, Hdb, doc_ok.
Qed.

Lemma updatePost_refused g postId s e :
  editingPost s = Some e →
  truthy (title e) = true → truthy (content e) = true →
  documentPathOk (postsDocPath g s postId) = false →
  updatePost g postId s
  = mkTurn s [console_error "Error updating document: "] None.
Proof.
  intros He Ht Hc Hbad. unfold updatePost.
  by rewrite He, Ht, Hc, doc_refused.
Qed.

Lemma deletePost_pending g s d p :
  db s = Some d → postToDelete s = Some p →
  documentPathOk (postsDocPath g s (id p)) = true →
  deletePost g s
  = mkTurn s [deleteDoc (postsDocPath g s (id p))] (Some await_deleteDoc).
Proof.
  intros Hdb Hp Hok. unfold deletePost. by rewrite Hp, Hdb, doc_ok.
Qed.

Lemma deletePost_refused g s p :
  postToDelete s = Some p →
  documentPathOk (postsDocPath g s (id p)) = false →
  deletePost g s
  = mkTurn s [console_error "Error deleting document: "] None.
Proof.
  intros Hp Hbad. unfold deletePost. by rewrite Hp, doc_refused.
Qed.

Lemma posts_settle a o s : posts (settle a o s).1 = posts s.
Proof. by destruct a, o. Qed.

Lemma posts_complete_createPost g now s o :
  posts (complete (createPost g now s) o).1 = posts s.
Proof.
  unfold complete. destruct (awaits (createPost g now s)) as [a|].
  - pose proof (posts_settle a o (next (createPost g now s))) as H.
    destruct (settle a o _) as [s' es]. simpl in *.
    by rewrite H, next_createPost.
  - simpl. by rewrite next_createPost.
Qed.

(** ** The running page, one event at a time *)

Lemma step_ui g x e :
  ui (step g x e).1 = if enabled x e then r_state (react g x e) else ui x.
Proof.
  unfold step. destruct (enabled x e); [|done].
  by destruct (syncListener _ _ _ _).
Qed.

Lemma step_disabled g x e : enabled x e = false → step g x e = (x, []).
Proof. unfold step. by intros ->. Qed.

Lemma step_enabled g x e :
  enabled x e = true →
  step g x e
  = (mkSession (r_state (react g x e))
       (syncListener g (authListener x) (ui x) (r_state (react g x e))
          (r_feed (react g x e))).1
       (authListener x) (r_inflight (react g x e)),
     r_did (react g x e)
     ++ (syncListener g (authListener x) (ui x) (r_state (react g x e))
           (r_feed (react g x e))).2).
Proof.
  unfold step. intros ->. by destruct (syncListener _ _ _ _).
Qed.

Lemma syncListener_deps g l old new f :
  listenerDeps old = listenerDeps new → syncListener g l old new f = (f, []).
Proof.
  intros H. unfold syncListener. rewrite bool_decide_eq_true_2 by done.
  by destruct (unmounted f).
Qed.

Lemma syncListener_same g l s f : syncListener g l s s f = (f, []).
Proof. by apply syncListener_deps. Qed.

(** A callback that leaves the state alone triggers no effect re-run: the
    page does what the callback did. *)
Lemma step_turn g x e t :
  enabled x e = true → react g x e = ofTurn x t → next t = ui x →
  step g x e
  = (mkSession (ui x) (feed x) (authListener x)
       (inflight x ++ option_list (awaits t)), did t).
Proof.
  intros Hen Hre Hnext. rewrite step_enabled, Hre by done. simpl.
  by rewrite Hnext, syncListener_same, app_nil_r.
Qed.

Lemma step_clickCreate g x now :
  enabled x (ev_clickCreate now) = true →
  (step g x (ev_clickCreate now)).2 = did (createPost g now (ui x)).
Proof.
  intros Hen.
  by rewrite (step_turn g x (ev_clickCreate now) (createPost g now (ui x)))
    by auto using next_createPost.
Qed.

Lemma step_clickUpdate g x :
  enabled x ev_clickUpdate = true →
  (step g x ev_clickUpdate).2
  = did (updatePost g (from_option id None (editingPost (ui x))) (ui x)).
Proof.
  intros Hen.
  by rewrite (step_turn g x ev_clickUpdate
                (updatePost g (from_option id None (editingPost (ui x))) (ui x)))
    by auto using next_updatePost.
Qed.

Lemma step_confirmDelete g x :
  enabled x ev_confirmDelete = true →
  (step g x ev_confirmDelete).2 = did (deletePost g (ui x)).
Proof.
  intros Hen.
  by rewrite (step_turn g x ev_confirmDelete (deletePost g (ui x)))
    by auto using next_deletePost.
Qed.

Lemma r_state_settled g x i o :
  r_state (react g x (ev_settled i o))
  = match inflight x !! i with
    | Some a => (settle a o (ui x)).1
    | None => ui x
    end.
Proof.
  simpl. destruct (inflight x !! i) as [a|]; [|done].
  by destruct (settle a o (ui x)).
Qed.

(** Only a snapshot event changes [posts]. *)
Lemma react_posts g x e :
  (∀ docs, e ≠ ev_snapshot docs) →
  posts (r_state (react g x e)) = posts (ui x).
Proof.
  intros Hne. destruct e; try done.
  - by destruct user.
  - rewrite r_state_settled. destruct (inflight x !! i); [|done].
    apply posts_settle.
  - by destruct (Hne docs).
  - simpl. unfold onTitleChange. by destruct (editingPost (ui x)).
  - simpl. unfold onContentChange. by destruct (editingPost (ui x)).
  - simpl. by rewrite next_createPost.
  - simpl. by rewrite next_updatePost.
  - simpl. by rewrite next_deletePost.
Qed.

Lemma step_posts g x e :
  (∀ docs, e ≠ ev_snapshot docs) →
  posts (ui (step g x e).1) = posts (ui x).
Proof.
  intros Hne. rewrite step_ui. destruct (enabled x e); [|done].
  by apply react_posts.
Qed.

Lemma react_db g x e : db (r_state (react g x e)) = db (ui x).
Proof.
  destruct e; try done.
  - by destruct user.
  - rewrite r_state_settled. destruct (inflight x !! i) as [a|]; [|done].
    by destruct a, o.
  - simpl. unfold onTitleChange. by destruct (editingPost (ui x)).
  - simpl. unfold onContentChange. by destruct (editingPost (ui x)).
  - simpl. by rewrite next_createPost.
  - simpl. by rewrite next_updatePost.
  - simpl. by rewrite next_deletePost.
Qed.

Lemma step_db g x e : db (ui (step g x e).1) = db (ui x).
Proof.
  rewrite step_ui. destruct (enabled x e); [|done]. apply react_db.
Qed.

(** ** The store handle is there whenever a write can be asked for *)

Lemma run_invariant (P : Session → Prop) g :
  (∀ x e, P x → P (step g x e).1) →
  ∀ es x, P x → P (run g x es).1.
Proof.
  intros Hstep es. induction es as [|e es IH]; intros x Hx; [done|].
  simpl. specialize (Hstep x e Hx). destruct (step g x e) as [x' out].
  specialize (IH x' Hstep). by destruct (run g x' es).
Qed.

Lemma mount_wired g : wired (mount g).1.
Proof.
  unfold wired, mount, initFirebase.
  destruct (__firebase_config g) as [[| |[]]|]; simpl; auto.
  destruct (truthy (__initial_auth_token g)); simpl; eauto.
Qed.

Lemma step_wired g x e : wired x → wired (step g x e).1.
Proof.
  intros [Hdb|(Hl & Hi & Hr & Hm)].
  - left. by rewrite step_db.
  - destruct (enabled x e) eqn:Hen; [|rewrite step_disabled by done; by right].
    right. rewrite step_enabled by done. simpl.
    unfold enabled, adminRendered, blogRendered in Hen.
    destruct e; simpl in *;
      rewrite ?Hl, ?Hi, ?Hr, ?Hm, ?andb_false_r in Hen; simpl in Hen;
      try done.
Qed.

Lemma reachable_wired g x : reachable g x → wired x.
Proof.
  intros [es <-]. apply run_invariant; [apply step_wired|apply mount_wired].
Qed.

(** In a reachable page, once the blog is rendered or the delete prompt is
    up, the Firestore handle is set. *)
Lemma reachable_has_db g x :
  reachable g x →
  isAuthReady (ui x) = true ∨ showDeleteModal (ui x) = true →
  is_Some (db (ui x)).
Proof.
  intros Hx Hon. destruct (reachable_wired g x Hx) as [?|(_ & _ & Hr & Hm)];
    [done|].
  destruct Hon; congruence.
Qed.

(** The buttons that lead to a write are only there with the handle set. *)
Lemma reachable_write_click_has_db g x e :
  reachable g x → enabled x e = true →
  (∃ now, e = ev_clickCreate now) ∨ e = ev_clickUpdate ∨ e = ev_confirmDelete →
  is_Some (db (ui x)).
Proof.
  intros Hx Hen He. apply (reachable_has_db g); [done|].
  unfold enabled, adminRendered, blogRendered in Hen.
  destruct He as [[now ->]|[-> | ->]]; simpl in Hen;
    apply andb_true_iff in Hen as [_ Hen]; [left|left|by right];
    by destruct (isAuthReady (ui x)).
Qed.

(** ** Subscriptions *)

Lemma postsEffect_skip g s :
  isAuthReady s = false ∨ truthy (userId s) = false →
  postsEffect g s = eff_skip.
Proof.
  unfold postsEffect. intros [-> | ->]; [done|].
  by destruct (isAuthReady s).
Qed.

Lemma postsEffect_guard g s :
  postsEffect g s ≠ eff_skip →
  isAuthReady s = true ∧ truthy (userId s) = true ∧ is_Some (db s).
Proof.
  unfold postsEffect.
  destruct (isAuthReady s), (truthy (userId s)), (db s); simpl; try done.
Qed.

Lemma postsEffect_listen g s p :
  postsEffect g s = eff_listen p →
  isAuthReady s = true ∧ truthy (userId s) = true ∧ is_Some (db s) ∧
  p = postsCollectionPath g s ∧ collectionPathOk p = true.
Proof.
  intros H. destruct (postsEffect_guard g s) as (Hr & Hu & Hdb);
    [by rewrite H|].
  split_and!; try done; unfold postsEffect in H; rewrite Hr, Hu in H;
    rewrite bool_decide_eq_true_2 in H by done; simpl in H;
    destruct (collection _ _) as [ref|] eqn:Hc; simplify_eq;
    apply collection_Some in Hc as (_ & ? & ?); by subst.
Qed.

Lemma postsEffect_throw g s :
  postsEffect g s = eff_throw →
  isAuthReady s = true ∧ truthy (userId s) = true ∧ is_Some (db s) ∧
  collectionPathOk (postsCollectionPath g s) = false.
Proof.
  intros H. destruct (postsEffect_guard g s) as (Hr & Hu & [d Hdb]);
    [by rewrite H|].
  split_and!; try done. unfold postsEffect, collection in H.
  rewrite Hr, Hu, Hdb in H. simpl in H.
  by destruct (collectionPathOk _).
Qed.

Lemma postsEffect_ok g s d :
  isAuthReady s = true → truthy (userId s) = true → db s = Some d →
  collectionPathOk (postsCollectionPath g s) = true →
  postsEffect g s = eff_listen (postsCollectionPath g s).
Proof.
  intros Hr Hu Hdb Hok. unfold postsEffect.
  by rewrite Hr, Hu, Hdb, collection_ok.
Qed.

Lemma postsEffect_refused g s d :
  isAuthReady s = true → truthy (userId s) = true → db s = Some d →
  collectionPathOk (postsCollectionPath g s) = false →
  postsEffect g s = eff_throw.
Proof.
  intros Hr Hu Hdb Hbad. unfold postsEffect.
  by rewrite Hr, Hu, Hdb, collection_refused.
Qed.

Lemma postsEffect_deps g s s' :
  listenerDeps s = listenerDeps s' → postsEffect g s = postsEffect g s'.
Proof.
  unfold listenerDeps, postsEffect, postsCollectionPath.
  by intros [= -> -> ->].
Qed.

Lemma postsListener_feedOf g s : postsListener g s = feedOf (postsEffect g s).
Proof. reflexivity. Qed.

Lemma postsListener_None g s :
  isAuthReady s = false ∨ userId s = None → postsListener g s = None.
Proof.
  intros H. unfold postsListener. rewrite postsEffect_skip; [done|].
  destruct H as [?| ->]; auto.
Qed.

Lemma postsListener_Some g s p :
  postsListener g s = Some p →
  isAuthReady s = true ∧ truthy (userId s) = true ∧ is_Some (db s) ∧
  p = postsCollectionPath g s ∧ collectionPathOk p = true.
Proof.
  unfold postsListener. destruct (postsEffect g s) eqn:H; try done.
  intros [= <-]. by apply postsEffect_listen.
Qed.

Lemma syncListener_noSubscribe g l old new f :
  postsListener g new = None → noSubscribe (syncListener g l old new f).2.
Proof.
  intros H. unfold syncListener. destruct (unmounted f); [done|].
  case_bool_decide; simpl; [done|].
  unfold postsListener in H.
  destruct (postsEffect g new); [| |done]; destruct f, l;
    by repeat constructor.
Qed.

(** No handler subscribes by itself: only the posts effect does. *)
Lemma react_noSubscribe g x e : noSubscribe (r_did (react g x e)).
Proof.
  destruct e; simpl; try done.
  - destruct user; by repeat constructor.
  - destruct (inflight x !! i) as [a|]; [|done].
    destruct a, o; by repeat constructor.
  - by repeat constructor.
  - unfold createPost. repeat case_match; by repeat constructor.
  - unfold updatePost. repeat case_match; by repeat constructor.
  - unfold deletePost. repeat case_match; by repeat constructor.
Qed.

Lemma step_noSubscribe g x e :
  postsListener g (ui (step g x e).1) = None → noSubscribe (step g x e).2.
Proof.
  destruct (enabled x e) eqn:Hen.
  - rewrite step_enabled by done. simpl. intros H.
    apply Forall_app. split; [apply react_noSubscribe|].
    by apply syncListener_noSubscribe.
  - by rewrite step_disabled.
Qed.

Lemma react_userId g x e :
  identifies x e = false →
  userId (r_state (react g x e)) = userId (ui x).
Proof.
  intros Hid. destruct e; try done.
  - by destruct user.
  - rewrite r_state_settled. simpl in Hid.
    destruct (inflight x !! i) as [a|]; [|done].
    destruct o; [|by destruct a].
    apply bool_decide_eq_false in Hid. by destruct a.
  - simpl. unfold onTitleChange. by destruct (editingPost (ui x)).
  - simpl. unfold onContentChange. by destruct (editingPost (ui x)).
  - simpl. by rewrite next_createPost.
  - simpl. by rewrite next_updatePost.
  - simpl. by rewrite next_deletePost.
Qed.

Lemma step_userId g x e :
  identifies x e = false → userId (ui (step g x e).1) = userId (ui x).
Proof.
  intros Hid. rewrite step_ui. destruct (enabled x e); [|done].
  by apply react_userId.
Qed.

Lemma react_feed_none g x e :
  feed x = feed_none → r_feed (react g x e) = feed_none.
Proof.
  intros Hf. destruct e; simpl; try done.
  - destruct (inflight x !! i); [|done]. by destruct (settle _ _ _).
  - by rewrite Hf.
Qed.

Lemma step_feed_none g x e :
  feed x = feed_none → userId (ui (step g x e).1) = None →
  feed (step g x e).1 = feed_none.
Proof.
  intros Hf Hu. destruct (enabled x e) eqn:Hen.
  - rewrite step_enabled in * by done. simpl in *.
    unfold syncListener. rewrite postsEffect_skip by (right; by rewrite Hu).
    rewrite react_feed_none by done. simpl. by case_bool_decide.
  - by rewrite step_disabled.
Qed.

Lemma run_without_identity g es x :
  userId (ui x) = None → feed x = feed_none → authFails g x es = true →
  noSubscribe (run g x es).2 ∧
  userId (ui (run g x es).1) = None ∧ feed (run g x es).1 = feed_none.
Proof.
  revert x. induction es as [|e es IH]; intros x Hu Hf Hfail; [done|].
  simpl in Hfail. apply andb_true_iff in Hfail as [Hid Hfail].
  apply negb_true_iff in Hid.
  assert (userId (ui (step g x e).1) = None) as Hu'
    by (by rewrite step_userId).
  pose proof (step_feed_none g x e Hf Hu') as Hf'.
  pose proof (step_noSubscribe g x e (postsListener_None _ _ (or_intror Hu')))
    as Hout.
  destruct (IH _ Hu' Hf' Hfail) as (Hrest & ? & ?).
  simpl. destruct (step g x e) as [x' out]. simpl in *.
  destruct (run g x' es) as [x'' out']. simpl in *.
  split; [|done]. by apply Forall_app.
Qed.

Lemma mount_no_identity g :
  userId (ui (mount g).1) = None ∧ isAuthReady (ui (mount g).1) = false ∧
  feed (mount g).1 = feed_none ∧ noSubscribe (mount g).2.
Proof.
  unfold mount, initFirebase.
  destruct (__firebase_config g) as [[| |[]]|]; simpl;
    try (split_and!; by repeat constructor).
  destruct (truthy (__initial_auth_token g)); simpl;
    split_and!; by repeat constructor.
Qed.

(** ** The local snapshot *)

(** C1. After every snapshot the local post list holds exactly the emitted
    documents, in descending order of timestamp, where a post without a
    timestamp is placed as if its timestamp were 0: it ties with a post whose
    timestamp is 0, comes after every post with a positive timestamp and
    before every post with a negative one. When these timestamps are
    pairwise distinct the order is strictly descending. *)
Theorem snapshot_sorted_by_timestamp_desc
    (docs : list QueryDocumentSnapshot) (s : State) :
  posts (onSnapshotNext docs s) ≡ₚ toPost <$> docs ∧
  StronglySorted (λ a b, timestampOrZero b ≤ timestampOrZero a)
    (posts (onSnapshotNext docs s)) ∧
  (NoDup (timestampOrZero <$> (toPost <$> docs)) →
   StronglySorted (λ a b, timestampOrZero b < timestampOrZero a)
     (posts (onSnapshotNext docs s))) ∧
  (∀ d, timestampOrZero (toPost d)
        = match timestamp (doc_data d) with
          | Some n => n
          | None => 0
          end) ∧
  (∀ a b, byTimestampDesc a b = timestampOrZero b - timestampOrZero a).
Proof.
  assert (∀ p, timeOf p = timestampOrZero p) as Hkey.
  { intros p. unfold timeOf, timestampOrZero, orZero.
    destruct (timestamp p) as [n|]; [|done]. by case_bool_decide. }
  assert (∀ a b, byTimestampDesc a b = timestampOrZero b - timestampOrZero a)
    as Hcmp.
  { intros a b. by rewrite byTimestampDesc_key, !Hkey. }
  rewrite posts_onSnapshotNext. unfold fetchedPosts. split_and!.
  - apply array_sort_perm.
  - by apply array_sort_sorted.
  - by apply array_sort_strict.
  - intros d. unfold timestampOrZero. by rewrite timestamp_toPost.
  - done.
Qed.

Lemma snapshot_sorted_by_timestamp_desc_witness :
  NoDup (timestampOrZero <$> (toPost <$>
           [sampleDoc "a" (Some 100); sampleDoc "b" (Some 200);
            sampleDoc "c" None; sampleDoc "d" (Some (-5))])) ∧
  StronglySorted (λ a b, timestampOrZero b < timestampOrZero a)
    (posts (onSnapshotNext
              [sampleDoc "a" (Some 100); sampleDoc "b" (Some 200);
               sampleDoc "c" None; sampleDoc "d" (Some (-5))]
              initialState)) ∧
  id <$> posts (onSnapshotNext
                  [sampleDoc "a" (Some 100); sampleDoc "b" (Some 200);
                   sampleDoc "c" None; sampleDoc "d" (Some (-5))]
                  initialState)
  = [Some "b"; Some "a"; Some "c"; Some "d"] ∧
  id <$> posts (onSnapshotNext
                  [sampleDoc "a" None; sampleDoc "b" (Some 0);
                   sampleDoc "c" (Some 5)] initialState)
  = [Some "c"; Some "a"; Some "b"].
Proof.
  assert (NoDup (timestampOrZero <$> (toPost <$>
            [sampleDoc "a" (Some 100); sampleDoc "b" (Some 200);
             sampleDoc "c" None; sampleDoc "d" (Some (-5))]))) as Hnd.
  { apply (bool_decide_unpack _). vm_compute. exact I. }
  split; [exact Hnd|]. split; [|split; vm_compute; reflexivity].
  exact (proj1 (proj2 (proj2
           (snapshot_sorted_by_timestamp_desc _ initialState))) Hnd).
Defined.

(** C6. Posts whose timestamps are equal, or are both missing, stay in the
    order in which the store emitted them: for every timestamp value the
    posts carrying it form the same sequence before and after sorting, and
    of two such documents the one emitted first comes first in the local
    list. *)
Theorem snapshot_ties_keep_emission_order
    (docs : list QueryDocumentSnapshot) (s : State) :
  (∀ k, filter (λ p, timeOf p = k) (posts (onSnapshotNext docs s))
        = filter (λ p, timeOf p = k) (toPost <$> docs)) ∧
  (∀ a b l1 l2 l3,
     docs = l1 ++ a :: l2 ++ b :: l3 →
     orZero (timestamp (doc_data a)) = orZero (timestamp (doc_data b)) →
     ∃ r1 r2 r3,
       posts (onSnapshotNext docs s) = r1 ++ toPost a :: r2 ++ toPost b :: r3).
Proof.
  rewrite posts_onSnapshotNext. unfold fetchedPosts.
  assert (∀ k, filter (λ p, timeOf p = k)
                 (array_sort byTimestampDesc (toPost <$> docs))
               = filter (λ p, timeOf p = k) (toPost <$> docs)) as Hstable.
  { intros k. apply array_sort_stable, byTimestampDesc_key. }
  split; [done|].
  intros a b l1 l2 l3 -> Hab.
  specialize (Hstable (timeOf (toPost a))).
  rewrite !fmap_app, !fmap_cons, !fmap_app, !fmap_cons in Hstable.
  rewrite filter_app, filter_cons_True in Hstable by done.
  rewrite filter_app, filter_cons_True in Hstable
    by (unfold timeOf; by rewrite !timestamp_toPost).
  apply filter_split_inv in Hstable as (r1 & r & Hsort & _ & Hr).
  apply filter_split_inv in Hr as (r2 & r3 & -> & _ & _).
  exists r1, r2, r3. rewrite <- Hsort.
  by rewrite !fmap_app, !fmap_cons, !fmap_app, !fmap_cons.
Qed.

Lemma snapshot_ties_keep_emission_order_witness :
  (∃ r1 r2 r3,
     posts (onSnapshotNext
              [sampleDoc "a" None; sampleDoc "b" (Some 5); sampleDoc "c" None;
               sampleDoc "d" (Some 5)] initialState)
     = r1 ++ toPost (sampleDoc "a" None) :: r2
          ++ toPost (sampleDoc "c" None) :: r3) ∧
  (∃ r1 r2 r3,
     posts (onSnapshotNext
              [sampleDoc "a" None; sampleDoc "b" (Some 5); sampleDoc "c" None;
               sampleDoc "d" (Some 5)] initialState)
     = r1 ++ toPost (sampleDoc "b" (Some 5)) :: r2
          ++ toPost (sampleDoc "d" (Some 5)) :: r3) ∧
  id <$> posts (onSnapshotNext
                  [sampleDoc "a" None; sampleDoc "b" (Some 5);
                   sampleDoc "c" None; sampleDoc "d" (Some 5)] initialState)
  = [Some "b"; Some "d"; Some "a"; Some "c"].
Proof.
  split_and!.
  - apply (proj2 (snapshot_ties_keep_emission_order _ initialState)
             (sampleDoc "a" None) (sampleDoc "c" None)
             [] [sampleDoc "b" (Some 5)] [sampleDoc "d" (Some 5)]);
      vm_compute; reflexivity.
  - apply (proj2 (snapshot_ties_keep_emission_order _ initialState)
             (sampleDoc "b" (Some 5)) (sampleDoc "d" (Some 5))
             [sampleDoc "a" None] [sampleDoc "c" None] []);
      vm_compute; reflexivity.
  - vm_compute; reflexivity.
Defined.

(** ** Validation *)

(** C2. A draft whose title or content is the empty string is turned down
    by [createPost] and by [updatePost] alike: the validation message is
    logged, no call reaches the store, nothing is awaited and the state,
    the draft included, is what it was; the page that received the click is
    the page from before. *)
Theorem empty_draft_is_rejected
    (g : Globals) (now : Z) (postId : option string) (s : State) :
  (title (newPost s) = Some "" ∨ content (newPost s) = Some "" →
   createPost g now s
   = mkTurn s [console_error "Title and content cannot be empty."] None) ∧
  (∀ e, editingPost s = Some e →
        title e = Some "" ∨ content e = Some "" →
        updatePost g postId s
        = mkTurn s [console_error "Title and content cannot be empty."] None) ∧
  (∀ x, ui x = s → enabled x (ev_clickCreate now) = true →
        title (newPost s) = Some "" ∨ content (newPost s) = Some "" →
        step g x (ev_clickCreate now)
        = (x, [console_error "Title and content cannot be empty."])) ∧
  (∀ x e, ui x = s → enabled x ev_clickUpdate = true →
          editingPost s = Some e →
          title e = Some "" ∨ content e = Some "" →
          step g x ev_clickUpdate
          = (x, [console_error "Title and content cannot be empty."])).
Proof.
  assert (title (newPost s) = Some "" ∨ content (newPost s) = Some "" →
          createPost g now s
          = mkTurn s [console_error "Title and content cannot be empty."] None)
    as Hcreate.
  { intros H. unfold createPost.
    destruct H as [-> | ->]; simpl; [done|]. by rewrite orb_true_r. }
  assert (∀ pid e, editingPost s = Some e →
            title e = Some "" ∨ content e = Some "" →
            updatePost g pid s
            = mkTurn s [console_error "Title and content cannot be empty."]
                None) as Hupdate.
  { intros pid e He H. unfold updatePost. rewrite He.
    destruct H as [-> | ->]; simpl; [done|]. by rewrite orb_true_r. }
  split_and!; [done|by apply Hupdate| |].
  - intros x <- Hen H.
    rewrite (step_turn g x (ev_clickCreate now) (createPost g now (ui x)))
      by auto using next_createPost.
    rewrite Hcreate by done. simpl. rewrite app_nil_r. by destruct x.
  - intros x e <- Hen He H.
    rewrite (step_turn g x ev_clickUpdate
               (updatePost g (from_option id None (editingPost (ui x))) (ui x)))
      by auto using next_updatePost.
    rewrite (Hupdate _ e) by done. simpl. rewrite app_nil_r. by destruct x.
Qed.

Lemma empty_draft_is_rejected_witness :
  content (newPost (ui atUntitledDraft)) = Some "World" ∧
  step sampleGlobals atUntitledDraft (ev_clickCreate 1700000000000)
  = (atUntitledDraft, [console_error "Title and content cannot be empty."]).
Proof.
  split; [vm_compute; reflexivity|].
  apply (proj1 (proj2 (proj2
           (empty_draft_is_rejected sampleGlobals 1700000000000 None
              (ui atUntitledDraft))))).
  - vm_compute; reflexivity.
  - vm_compute; reflexivity.
  - left. vm_compute; reflexivity.
Defined.

(** C10, as the code has it. Validation only asks for non-empty text: a
    draft whose title and content are non-empty strings, blanks included, is
    never turned down by the validation of [createPost] or [updatePost]. The
    write that follows goes out with that title and content when the SDK
    accepts the path, as it does when the pieces of the path are plain
    segments; on a path the SDK refuses the callback logs the error and
    writes nothing. *)
Theorem nonempty_draft_is_written
    (g : Globals) (now : Z) (t c : string) :
  t ≠ "" → c ≠ "" →
  (∀ s, title (newPost s) = Some t → content (newPost s) = Some c →
     console_error "Title and content cannot be empty."
     ∉ did (createPost g now s)) ∧
  (∀ postId s e, editingPost s = Some e →
     title e = Some t → content e = Some c →
     console_error "Title and content cannot be empty."
     ∉ did (updatePost g postId s)) ∧
  (∀ s d, db s = Some d →
     title (newPost s) = Some t → content (newPost s) = Some c →
     collectionPathOk (postsCollectionPath g s) = true →
     ∃ fields,
       did (createPost g now s) = [addDoc (postsCollectionPath g s) fields] ∧
       title fields = Some t ∧ content fields = Some c) ∧
  (∀ postId s d e, db s = Some d → editingPost s = Some e →
     title e = Some t → content e = Some c →
     documentPathOk (postsDocPath g s postId) = true →
     ∃ fields,
       did (updatePost g postId s)
       = [updateDoc (postsDocPath g s postId) fields] ∧
       title fields = Some t ∧ content fields = Some c) ∧
  (∀ x, reachable g x → enabled x (ev_clickCreate now) = true →
     title (newPost (ui x)) = Some t → content (newPost (ui x)) = Some c →
     collectionPathOk (postsCollectionPath g (ui x)) = true →
     ∃ fields,
       (step g x (ev_clickCreate now)).2
       = [addDoc (postsCollectionPath g (ui x)) fields] ∧
       title fields = Some t ∧ content fields = Some c) ∧
  (∀ x e, reachable g x → enabled x ev_clickUpdate = true →
     editingPost (ui x) = Some e →
     title e = Some t → content e = Some c →
     documentPathOk (postsDocPath g (ui x) (id e)) = true →
     ∃ fields,
       (step g x ev_clickUpdate).2
       = [updateDoc (postsDocPath g (ui x) (id e)) fields] ∧
       title fields = Some t ∧ content fields = Some c) ∧
  (∀ s, title (newPost s) = Some t → content (newPost s) = Some c →
     collectionPathOk (postsCollectionPath g s) = false →
     createPost g now s
     = mkTurn s [console_error "Error adding document: "] None) ∧
  (∀ postId s e, editingPost s = Some e →
     title e = Some t → content e = Some c →
     documentPathOk (postsDocPath g s postId) = false →
     updatePost g postId s
     = mkTurn s [console_error "Error updating document: "] None) ∧
  (∀ s pid,
     plainSegment (appId g) = true →
     plainSegment (default "null" (userId s)) = true →
     collectionPathOk (postsCollectionPath g s) = true ∧
     (plainSegment (default "undefined" pid) = true →
      documentPathOk (postsDocPath g s pid) = true)).
Proof.
  intros Ht Hc.
  assert (∀ s d, db s = Some d →
            title (newPost s) = Some t → content (newPost s) = Some c →
            collectionPathOk (postsCollectionPath g s) = true →
            ∃ fields,
              did (createPost g now s)
              = [addDoc (postsCollectionPath g s) fields] ∧
              title fields = Some t ∧ content fields = Some c) as Hcreate.
  { intros s d Hdb Htitle Hcontent Hok.
    rewrite (createPost_valid g now s d t c) by done. by eexists. }
  assert (∀ postId s d e, db s = Some d → editingPost s = Some e →
            title e = Some t → content e = Some c →
            documentPathOk (postsDocPath g s postId) = true →
            ∃ fields,
              did (updatePost g postId s)
              = [updateDoc (postsDocPath g s postId) fields] ∧
              title fields = Some t ∧ content fields = Some c) as Hupdate.
  { intros postId s d e Hdb He Htitle Hcontent Hok.
    rewrite (updatePost_valid g postId s d e)
      by (rewrite ?Htitle, ?Hcontent; auto using truthy_nonempty).
    by eexists. }
  split_and!; [| |done|done| | | | |].
  - intros s Htitle Hcontent. unfold createPost.
    rewrite Htitle, Hcontent, !truthy_nonempty by done. simpl.
    destruct (collection _ _); simpl; rewrite list_elem_of_singleton; done.
  - intros postId s e He Htitle Hcontent. unfold updatePost.
    rewrite He, Htitle, Hcontent, !truthy_nonempty by done. simpl.
    destruct (doc _ _); simpl; rewrite list_elem_of_singleton; done.
  - intros x Hx Hen Htitle Hcontent Hok.
    destruct (reachable_write_click_has_db g x _ Hx Hen) as [d Hdb]; [eauto|].
    rewrite step_clickCreate by done. by apply (Hcreate _ d).
  - intros x e Hx Hen He Htitle Hcontent Hok.
    destruct (reachable_write_click_has_db g x _ Hx Hen) as [d Hdb]; [eauto|].
    rewrite step_clickUpdate, He by done. by apply (Hupdate _ _ d e).
  - intros s Htitle Hcontent Hbad. apply createPost_refused; [..|done];
      rewrite ?Htitle, ?Hcontent; by apply truthy_nonempty.
  - intros postId s e He Htitle Hcontent Hbad.
    apply (updatePost_refused g postId s e); [done|..|done];
      rewrite ?Htitle, ?Hcontent; by apply truthy_nonempty.
  - intros s pid Ha Hu. split; [by apply collectionPathOk_plain|].
    intros Hp. by apply documentPathOk_plain.
Qed.

Lemma nonempty_draft_is_written_witness :
  ∃ fields,
    (step sampleGlobals atBlankDraft (ev_clickCreate 1700000000000)).2
    = [addDoc (postsCollectionPath sampleGlobals (ui atBlankDraft)) fields] ∧
    title fields = Some " " ∧ content fields = Some "  ".
Proof.
  apply (proj1 (proj2 (proj2 (proj2 (proj2
           (nonempty_draft_is_written sampleGlobals 1700000000000 " " "  "
              ltac:(discriminate) ltac:(discriminate))))))).
  - exists toBlankDraft. vm_compute; reflexivity.
  - vm_compute; reflexivity.
  - vm_compute; reflexivity.
  - vm_compute; reflexivity.
  - vm_compute; reflexivity.
Defined.

(** C10 as stated fails: with [__app_id] holding a slash the posts path has
    an even number of segments, and a draft of blanks, which passes the
    validation, is not written: [createPost] only logs the SDK's error.
    Likewise an update of a listed post whose data carries the id [''] is
    only logged. *)
Lemma nonempty_draft_not_written_on_refused_path :
  title (newPost (ui atSlashAppIdDraft)) = Some " " ∧
  content (newPost (ui atSlashAppIdDraft)) = Some "  " ∧
  enabled atSlashAppIdDraft (ev_clickCreate 1700000000000) = true ∧
  postsCollectionPath slashAppId (ui atSlashAppIdDraft)
  = "artifacts/a/b/users/null/blogPosts" ∧
  step slashAppId atSlashAppIdDraft (ev_clickCreate 1700000000000)
  = (atSlashAppIdDraft, [console_error "Error adding document: "]) ∧
  editingPost (ui atShadowedEdit)
  = Some (mkObj (Some "") (Some "Hi") (Some "World") (Some "Murad Amin")
            (Some 100)) ∧
  enabled atShadowedEdit ev_clickUpdate = true ∧
  step sampleGlobals atShadowedEdit ev_clickUpdate
  = (atShadowedEdit, [console_error "Error updating document: "]).
Proof. vm_compute. by split_and!. Qed.

(** ** Create *)

(** C5, as the code has it. A draft with non-empty title and content makes
    [createPost] call [collection] on the posts path of the current user
    and, when the SDK accepts that path (as it does when app id and user id
    are plain segments), issue one [addDoc] on it with exactly the draft's
    title and content, the author ['Murad Amin'] and the time of the call;
    when that write succeeds the draft becomes [{ title: '', content: '' }],
    whatever happened in between. On a path the SDK refuses, [createPost]
    logs the error, writes nothing and leaves the draft. *)
Theorem createPost_writes_new_post
    (g : Globals) (now : Z) (t c : string) :
  t ≠ "" → c ≠ "" →
  (∀ s d, db s = Some d →
     title (newPost s) = Some t → content (newPost s) = Some c →
     collectionPathOk (postsCollectionPath g s) = true →
     createPost g now s
     = mkTurn s
         [addDoc (postsCollectionPath g s)
            (mkObj None (Some t) (Some c) (Some "Murad Amin") (Some now))]
         (Some await_addDoc) ∧
     ∀ docId,
       newPost (complete (createPost g now s) (resolved docId)).1
       = mkObj None (Some "") (Some "") None None) ∧
  (∀ x, reachable g x → enabled x (ev_clickCreate now) = true →
     title (newPost (ui x)) = Some t → content (newPost (ui x)) = Some c →
     collectionPathOk (postsCollectionPath g (ui x)) = true →
     (step g x (ev_clickCreate now)).2
     = [addDoc (postsCollectionPath g (ui x))
          (mkObj None (Some t) (Some c) (Some "Murad Amin") (Some now))] ∧
     inflight (step g x (ev_clickCreate now)).1
     = inflight x ++ [await_addDoc]) ∧
  (∀ docId s',
     settle await_addDoc (resolved docId) s' = (setNewPost blankPost s', []) ∧
     newPost (settle await_addDoc (resolved docId) s').1
     = mkObj None (Some "") (Some "") None None) ∧
  (∀ s, title (newPost s) = Some t → content (newPost s) = Some c →
     collectionPathOk (postsCollectionPath g s) = false →
     createPost g now s
     = mkTurn s [console_error "Error adding document: "] None) ∧
  (∀ x, enabled x (ev_clickCreate now) = true →
     title (newPost (ui x)) = Some t → content (newPost (ui x)) = Some c →
     collectionPathOk (postsCollectionPath g (ui x)) = false →
     step g x (ev_clickCreate now)
     = (x, [console_error "Error adding document: "])) ∧
  (∀ s, plainSegment (appId g) = true →
        plainSegment (default "null" (userId s)) = true →
        collectionPathOk (postsCollectionPath g s) = true).
Proof.
  intros Ht Hc.
  assert (∀ s, title (newPost s) = Some t → content (newPost s) = Some c →
            collectionPathOk (postsCollectionPath g s) = false →
            createPost g now s
            = mkTurn s [console_error "Error adding document: "] None)
    as Hrefused.
  { intros s Htitle Hcontent Hbad. apply createPost_refused; [..|done];
      rewrite ?Htitle, ?Hcontent; by apply truthy_nonempty. }
  split_and!; [| |done|done| |].
  - intros s d Hdb Htitle Hcontent Hok.
    rewrite (createPost_valid g now s d t c) by done. by split.
  - intros x Hx Hen Htitle Hcontent Hok.
    destruct (reachable_write_click_has_db g x _ Hx Hen) as [d Hdb]; [eauto|].
    rewrite (step_turn g x (ev_clickCreate now) (createPost g now (ui x)))
      by auto using next_createPost.
    by rewrite (createPost_valid g now (ui x) d t c) by done.
  - intros x Hen Htitle Hcontent Hbad.
    rewrite (step_turn g x (ev_clickCreate now) (createPost g now (ui x)))
      by auto using next_createPost.
    rewrite Hrefused by done. simpl. rewrite app_nil_r. by destruct x.
  - intros s. apply collectionPathOk_plain.
Qed.

Lemma createPost_writes_new_post_witness :
  ((step sampleGlobals atBlankDraft (ev_clickCreate 1700000000000)).2
   = [addDoc (postsCollectionPath sampleGlobals (ui atBlankDraft))
        (mkObj None (Some " ") (Some "  ") (Some "Murad Amin")
           (Some 1700000000000))] ∧
   inflight (step sampleGlobals atBlankDraft (ev_clickCreate 1700000000000)).1
   = inflight atBlankDraft ++ [await_addDoc]) ∧
  postsCollectionPath sampleGlobals (ui atBlankDraft)
  = "artifacts/default-app-id/users/u1/blogPosts".
Proof.
  split; [|vm_compute; reflexivity].
  apply (proj1 (proj2
           (createPost_writes_new_post sampleGlobals 1700000000000 " " "  "
              ltac:(discriminate) ltac:(discriminate)))).
  - exists toBlankDraft. vm_compute; reflexivity.
  - vm_compute; reflexivity.
  - vm_compute; reflexivity.
  - vm_compute; reflexivity.
  - vm_compute; reflexivity.
Defined.

(** C5 as stated fails: with [__app_id] the empty string the posts path
    holds [//]; a visitor whose anonymous sign-in was refused types the
    draft Hi / World and presses Create: nothing is written, the error is
    logged and the draft stays. *)
Lemma createPost_refused_path_writes_nothing :
  title (newPost (ui atEmptyAppIdDraft)) = Some "Hi" ∧
  content (newPost (ui atEmptyAppIdDraft)) = Some "World" ∧
  enabled atEmptyAppIdDraft (ev_clickCreate 1700000000000) = true ∧
  postsCollectionPath emptyAppId (ui atEmptyAppIdDraft)
  = "artifacts//users/null/blogPosts" ∧
  step emptyAppId atEmptyAppIdDraft (ev_clickCreate 1700000000000)
  = (atEmptyAppIdDraft, [console_error "Error adding document: "]).
Proof. vm_compute. by split_and!. Qed.

(** C7. [createPost] never touches the local post list: not in its own
    turn, not when the write settles (whatever state it then finds), so
    right after it has resolved the list is the one from before the call;
    and in the running page an event that changes the list can only be a
    snapshot delivered to the listener. *)
Theorem createPost_leaves_posts (g : Globals) (now : Z) (s : State) :
  posts (next (createPost g now s)) = posts s ∧
  (∀ o s', posts (settle await_addDoc o s').1 = posts s') ∧
  (∀ o, posts (complete (createPost g now s) o).1 = posts s) ∧
  (∀ x e, posts (ui (step g x e).1) ≠ posts (ui x) →
          ∃ docs, e = ev_snapshot docs ∧
                  posts (ui (step g x e).1) = fetchedPosts docs).
Proof.
  split_and!.
  - by rewrite next_createPost.
  - intros o s'. apply posts_settle.
  - intros o. apply posts_complete_createPost.
  - intros x e Hchg.
    assert ((∃ docs, e = ev_snapshot docs) ∨ (∀ docs, e ≠ ev_snapshot docs))
      as [[docs ->]|Hno] by (destruct e; eauto).
    + exists docs. split; [done|].
      rewrite step_ui in *. by destruct (enabled x (ev_snapshot docs)).
    + destruct Hchg. by apply step_posts.
Qed.

Lemma createPost_leaves_posts_witness :
  ∃ docs,
    ev_snapshot [sampleDoc "a" (Some 100)] = ev_snapshot docs ∧
    posts (ui (step sampleGlobals atAdminPanel
                 (ev_snapshot [sampleDoc "a" (Some 100)])).1)
    = fetchedPosts docs.
Proof.
  apply (proj2 (proj2 (proj2
           (createPost_leaves_posts sampleGlobals 0 initialState)))
           atAdminPanel (ev_snapshot [sampleDoc "a" (Some 100)])).
  vm_compute. discriminate.
Defined.

(** ** Delete *)

(** C3, as the code has it. A confirmed deletion calls [doc] on the path of
    the pending post and, when the SDK accepts that path (as it does when
    app id, user id and the post's id are plain segments), issues
    [deleteDoc] for it. When the call succeeds, [postToDelete] becomes
    [null] and the prompt closes; when it fails, or when the path is
    refused, the error is logged and both stay as they are, the prompt
    open. *)
Theorem deletePost_clears_prompt_on_success (g : Globals) (p : Obj) :
  (∀ s d, db s = Some d → postToDelete s = Some p →
     documentPathOk (postsDocPath g s (id p)) = true →
     deletePost g s
     = mkTurn s [deleteDoc (postsDocPath g s (id p))] (Some await_deleteDoc)) ∧
  (∀ x, reachable g x → enabled x ev_confirmDelete = true →
     postToDelete (ui x) = Some p →
     documentPathOk (postsDocPath g (ui x) (id p)) = true →
     step g x ev_confirmDelete
     = (mkSession (ui x) (feed x) (authListener x)
          (inflight x ++ [await_deleteDoc]),
        [deleteDoc (postsDocPath g (ui x) (id p))])) ∧
  (∀ v s',
     postToDelete (settle await_deleteDoc (resolved v) s').1 = None ∧
     showDeleteModal (settle await_deleteDoc (resolved v) s').1 = false ∧
     (settle await_deleteDoc (resolved v) s').2 = []) ∧
  (∀ err s',
     settle await_deleteDoc (rejected err) s'
     = (s', [console_error "Error deleting document: "])) ∧
  (∀ x, enabled x ev_confirmDelete = true →
     postToDelete (ui x) = Some p →
     documentPathOk (postsDocPath g (ui x) (id p)) = false →
     step g x ev_confirmDelete
     = (x, [console_error "Error deleting document: "])) ∧
  (∀ s, plainSegment (appId g) = true →
        plainSegment (default "null" (userId s)) = true →
        plainSegment (default "undefined" (id p)) = true →
        documentPathOk (postsDocPath g s (id p)) = true).
Proof.
  split_and!; [| |done|done| |].
  - intros s d Hdb Hp Hok. by apply (deletePost_pending g s d).
  - intros x Hx Hen Hp Hok.
    destruct (reachable_write_click_has_db g x _ Hx Hen) as [d Hdb]; [eauto|].
    rewrite (step_turn g x ev_confirmDelete (deletePost g (ui x)))
      by auto using next_deletePost.
    by rewrite (deletePost_pending g (ui x) d p).
  - intros x Hen Hp Hbad.
    rewrite (step_turn g x ev_confirmDelete (deletePost g (ui x)))
      by auto using next_deletePost.
    rewrite (deletePost_refused g (ui x) p) by done. simpl.
    rewrite app_nil_r. by destruct x.
  - intros s. apply documentPathOk_plain.
Qed.

Lemma deletePost_clears_prompt_on_success_witness :
  step sampleGlobals atDeletePrompt ev_confirmDelete
  = (mkSession (ui atDeletePrompt) (feed atDeletePrompt)
       (authListener atDeletePrompt)
       (inflight atDeletePrompt ++ [await_deleteDoc]),
     [deleteDoc
        (postsDocPath sampleGlobals (ui atDeletePrompt)
           (id (toPost (sampleDoc "a" (Some 100)))))]).
Proof.
  apply (proj1 (proj2
           (deletePost_clears_prompt_on_success sampleGlobals
              (toPost (sampleDoc "a" (Some 100)))))).
  - exists toDeletePrompt. vm_compute; reflexivity.
  - vm_compute; reflexivity.
  - vm_compute; reflexivity.
  - vm_compute; reflexivity.
Defined.

(** C3 as stated fails: the store rejects the delete, and the prompt is
    still open on the same post. It fails as well for a listed post whose
    data carries the id ['']: its path is refused by [doc], no delete is
    issued and the prompt stays open. *)
Lemma deletePost_rejected_keeps_prompt :
  postToDelete (ui atDeletePrompt) = Some (toPost (sampleDoc "a" (Some 100))) ∧
  showDeleteModal (ui atDeletePrompt) = true ∧
  (run sampleGlobals atDeletePrompt
     [ev_confirmDelete; ev_settled 0 (rejected "permission-denied")]).2
  = [deleteDoc "artifacts/default-app-id/users/u1/blogPosts/a";
     console_error "Error deleting document: "] ∧
  postToDelete
    (ui (run sampleGlobals atDeletePrompt
           [ev_confirmDelete; ev_settled 0 (rejected "permission-denied")]).1)
  = Some (toPost (sampleDoc "a" (Some 100))) ∧
  showDeleteModal
    (ui (run sampleGlobals atDeletePrompt
           [ev_confirmDelete; ev_settled 0 (rejected "permission-denied")]).1)
  = true ∧
  (complete (deletePost sampleGlobals (ui atDeletePrompt))
     (rejected "permission-denied")).1
  = ui atDeletePrompt ∧
  postToDelete (ui atShadowedDelete) = Some (toPost shadowedDoc) ∧
  postsDocPath sampleGlobals (ui atShadowedDelete) (id (toPost shadowedDoc))
  = "artifacts/default-app-id/users/u1/blogPosts/" ∧
  step sampleGlobals atShadowedDelete ev_confirmDelete
  = (atShadowedDelete, [console_error "Error deleting document: "]).
Proof. vm_compute. by split_and!. Qed.

(** ** Update *)

(** C4. For a valid draft, whatever [updatePost] hands to the store is one
    [updateDoc] on the document of the given id whose payload holds the
    title and the content of the draft and nothing else: no author, no
    timestamp, no id. It hands it over whenever the SDK accepts the path of
    that document, as it does for plain segments, and the continuation
    after the write issues nothing. *)
Theorem updatePost_writes_title_and_content_only (g : Globals) (e : Obj) :
  truthy (title e) = true → truthy (content e) = true →
  (∀ postId s o, editingPost s = Some e →
     o ∈ did (updatePost g postId s) → isWrite o = true →
     o = updateDoc (postsDocPath g s postId)
           (mkObj None (title e) (content e) None None)) ∧
  (∀ postId s path f, editingPost s = Some e →
     updateDoc path f ∈ did (updatePost g postId s) →
     title f = title e ∧ content f = content e ∧
     author f = None ∧ timestamp f = None ∧ id f = None) ∧
  (∀ postId s d, db s = Some d → editingPost s = Some e →
     documentPathOk (postsDocPath g s postId) = true →
     did (updatePost g postId s)
     = [updateDoc (postsDocPath g s postId)
          (mkObj None (title e) (content e) None None)]) ∧
  (∀ x, reachable g x → enabled x ev_clickUpdate = true →
     editingPost (ui x) = Some e →
     documentPathOk (postsDocPath g (ui x) (id e)) = true →
     (step g x ev_clickUpdate).2
     = [updateDoc (postsDocPath g (ui x) (id e))
          (mkObj None (title e) (content e) None None)]) ∧
  (∀ o s', Forall (λ o', isWrite o' = false) (settle await_updateDoc o s').2) ∧
  (∀ postId s, plainSegment (appId g) = true →
     plainSegment (default "null" (userId s)) = true →
     plainSegment (default "undefined" postId) = true →
     documentPathOk (postsDocPath g s postId) = true).
Proof.
  intros Ht Hc.
  assert (∀ postId s o, editingPost s = Some e →
            o ∈ did (updatePost g postId s) → isWrite o = true →
            o = updateDoc (postsDocPath g s postId)
                  (mkObj None (title e) (content e) None None)) as Honly.
  { intros postId s o He. unfold updatePost. rewrite He, Ht, Hc. simpl.
    destruct (doc _ _) as [ref|] eqn:Hdoc; simpl;
      rewrite list_elem_of_singleton; intros -> Hw; [|done].
    apply doc_Some in Hdoc as (_ & _ & ->). done. }
  split_and!.
  - done.
  - intros postId s path f He Hin.
    by rewrite (updateDoc_inj _ _ _ _ (Honly postId s _ He Hin eq_refl)).
  - intros postId s d Hdb He Hok. by rewrite (updatePost_valid g postId s d e).
  - intros x Hx Hen He Hok.
    destruct (reachable_write_click_has_db g x _ Hx Hen) as [d Hdb]; [eauto|].
    rewrite step_clickUpdate, He by done. simpl.
    by rewrite (updatePost_valid g (id e) (ui x) d e).
  - intros o s'. destruct o; by repeat constructor.
  - intros postId s. apply documentPathOk_plain.
Qed.

Lemma updatePost_writes_title_and_content_only_witness :
  (step sampleGlobals atEditing ev_clickUpdate).2
  = [updateDoc
       (postsDocPath sampleGlobals (ui atEditing)
          (id (mkObj (Some "a") (Some "Hello") (Some "World")
                 (Some "Murad Amin") (Some 100))))
       (mkObj None
          (title (mkObj (Some "a") (Some "Hello") (Some "World")
                    (Some "Murad Amin") (Some 100)))
          (content (mkObj (Some "a") (Some "Hello") (Some "World")
                      (Some "Murad Amin") (Some 100)))
          None None)] ∧
  postsDocPath sampleGlobals (ui atEditing) (Some "a")
  = "artifacts/default-app-id/users/u1/blogPosts/a".
Proof.
  split; [|vm_compute; reflexivity].
  apply (proj1 (proj2 (proj2 (proj2
           (updatePost_writes_title_and_content_only sampleGlobals
              (mkObj (Some "a") (Some "Hello") (Some "World")
                 (Some "Murad Amin") (Some 100))
              eq_refl eq_refl))))).
  - exists toEditing. vm_compute; reflexivity.
  - vm_compute; reflexivity.
  - vm_compute; reflexivity.
  - vm_compute; reflexivity.
Defined.

(** ** The listener and the identity *)




(** C9. The posts effect subscribes only once [isAuthReady] holds and
    [userId] is set: in a state where either is missing its body does
    nothing, no step of the page that ends in such a state issues a
    subscription, and a session in which no identity is ever established
    never opens one. *)
Theorem no_subscription_without_identity (g : Globals) :
  (∀ s, isAuthReady s = false ∨ userId s = None → postsListener g s = None) ∧
  (∀ x e,
     isAuthReady (ui (step g x e).1) = false ∨
     userId (ui (step g x e).1) = None →
     noSubscribe (step g x e).2) ∧
  (∀ es,
     authFails g (mount g).1 es = true →
     noSubscribe ((mount g).2 ++ (run g (mount g).1 es).2) ∧
     feed (run g (mount g).1 es).1 = feed_none).
Proof.
  split_and!.
  - apply postsListener_None.
  - intros x e H. by apply step_noSubscribe, postsListener_None.
  - intros es Hfail.
    destruct (mount_no_identity g) as (Hu & _ & Hf & Hm).
    destruct (run_without_identity g es _ Hu Hf Hfail) as (Hrun & _ & Hfeed).
    split; [|done]. by apply Forall_app.
Qed.

Lemma no_subscription_without_identity_witness :
  isAuthReady (ui (run sampleGlobals (mount sampleGlobals).1 signInRefused).1)
  = true ∧
  noSubscribe
    ((mount sampleGlobals).2
     ++ (run sampleGlobals (mount sampleGlobals).1 signInRefused).2) ∧
  feed (run sampleGlobals (mount sampleGlobals).1 signInRefused).1 = feed_none.
Proof.
  split; [vm_compute; reflexivity|].
  apply (proj2 (proj2 (no_subscription_without_identity sampleGlobals))
           signInRefused).
  vm_compute; reflexivity.
Defined.

(** * Further properties *)

(** ** More on the snapshot callback *)

(** X1. The list the snapshot callback stores is the only one that holds the
    emitted posts, is descending by timestamp and keeps the emission order
    among posts of equal timestamp. *)
Theorem fetchedPosts_is_the_stable_sort
    (docs : list QueryDocumentSnapshot) (l : list Obj) :
  l ≡ₚ toPost <$> docs →
  StronglySorted (λ a b, timeOf b ≤ timeOf a) l →
  (∀ k, filter (λ p, timeOf p = k) l
        = filter (λ p, timeOf p = k) (toPost <$> docs)) →
  l = fetchedPosts docs.
Proof.
  intros Hp Hs Hf. unfold fetchedPosts.
  by apply (array_sort_unique timeOf byTimestampDesc byTimestampDesc_key).
Qed.

Lemma fetchedPosts_is_the_stable_sort_witness :
  [toPost (sampleDoc "b" (Some 200)); toPost (sampleDoc "a" (Some 100))]
  = fetchedPosts [sampleDoc "a" (Some 100); sampleDoc "b" (Some 200)].
Proof.
  apply fetchedPosts_is_the_stable_sort.
  - simpl. apply Permutation_swap.
  - repeat constructor. vm_compute. discriminate.
  - intros k. simpl. rewrite !filter_cons, filter_nil.
    change (timeOf (toPost (sampleDoc "b" (Some 200)))) with 200.
    change (timeOf (toPost (sampleDoc "a" (Some 100)))) with 100.
    repeat case_decide; try reflexivity; lia.
Defined.

#[local] Instance timeOf_gt_antisymm :
  AntiSymm (=) (λ a b : Obj, timeOf b < timeOf a).
Proof. intros a b ? ?. lia. Qed.

(** X2. When the timestamps are pairwise distinct, the displayed order does
    not depend on the order in which the store emitted the documents. *)
Theorem fetchedPosts_ignores_emission_order
    (docs1 docs2 : list QueryDocumentSnapshot) :
  docs1 ≡ₚ docs2 →
  NoDup (timeOf <$> (toPost <$> docs1)) →
  fetchedPosts docs1 = fetchedPosts docs2.
Proof.
  intros Hp Hnd. unfold fetchedPosts.
  apply (StronglySorted_unique (λ a b, timeOf b < timeOf a)).
  - by apply (array_sort_strict timeOf byTimestampDesc byTimestampDesc_key).
  - apply (array_sort_strict timeOf byTimestampDesc byTimestampDesc_key).
    by rewrite <- Hp.
  - by rewrite !array_sort_perm, Hp.
Qed.

Lemma fetchedPosts_ignores_emission_order_witness :
  fetchedPosts [sampleDoc "a" (Some 100); sampleDoc "b" (Some 200)]
  = fetchedPosts [sampleDoc "b" (Some 200); sampleDoc "a" (Some 100)].
Proof.
  apply fetchedPosts_ignores_emission_order.
  - apply Permutation_swap.
  - apply (bool_decide_unpack _). vm_compute. exact I.
Defined.

(** ** The page as a whole: helper facts *)

Lemma react_feedPath g x e :
  feedPath (r_feed (react g x e)) = feedPath (feed x).
Proof.
  destruct e; simpl; try done.
  - destruct (inflight x !! i); [|done]. by destruct (settle _ _ _).
  - by destruct (feed x).
Qed.

Lemma react_unmounted g x e :
  unmounted (r_feed (react g x e)) = unmounted (feed x).
Proof.
  destruct e; simpl; try done.
  - destruct (inflight x !! i); [|done]. by destruct (settle _ _ _).
  - by destruct (feed x).
Qed.

Lemma postsListener_deps g s s' :
  listenerDeps s = listenerDeps s' → postsListener g s = postsListener g s'.
Proof. intros H. unfold postsListener. by rewrite (postsEffect_deps g s s'). Qed.

(** While the page is mounted, the listener held is the one the last run of
    the posts effect left, and that run did not throw. *)
Lemma syncListener_feedPath g l old new f :
  unmounted f = true ∨
  (feedPath f = postsListener g old ∧ postsEffect g old ≠ eff_throw) →
  unmounted (syncListener g l old new f).1 = true ∨
  (feedPath (syncListener g l old new f).1 = postsListener g new ∧
   postsEffect g new ≠ eff_throw).
Proof.
  unfold syncListener. intros [Hf|[Hold Hno]]; [rewrite Hf; by left|].
  destruct (unmounted f) eqn:Hm; [by left|].
  case_bool_decide as Hdeps; simpl.
  - right. by rewrite <- (postsListener_deps g old new),
      <- (postsEffect_deps g old new).
  - unfold postsListener. destruct (postsEffect g new); simpl; auto.
Qed.

Lemma step_feedPath g x e :
  unmounted (feed x) = true ∨
  (feedPath (feed x) = postsListener g (ui x) ∧
   postsEffect g (ui x) ≠ eff_throw) →
  unmounted (feed (step g x e).1) = true ∨
  (feedPath (feed (step g x e).1) = postsListener g (ui (step g x e).1) ∧
   postsEffect g (ui (step g x e).1) ≠ eff_throw).
Proof.
  intros Hx. destruct (enabled x e) eqn:Hen.
  - rewrite step_enabled by done. simpl.
    apply syncListener_feedPath. by rewrite react_unmounted, react_feedPath.
  - by rewrite step_disabled.
Qed.

Lemma mount_feedPath g :
  feedPath (feed (mount g).1) = postsListener g (ui (mount g).1) ∧
  postsEffect g (ui (mount g).1) ≠ eff_throw.
Proof.
  destruct (mount_no_identity g) as (Hu & _ & Hf & _).
  rewrite Hf. unfold postsListener.
  by rewrite postsEffect_skip by (right; by rewrite Hu).
Qed.

Lemma reachable_feedPath g x :
  reachable g x →
  unmounted (feed x) = true ∨
  (feedPath (feed x) = postsListener g (ui x) ∧
   postsEffect g (ui x) ≠ eff_throw).
Proof.
  intros [es <-].
  apply (run_invariant
           (λ x, unmounted (feed x) = true ∨
                 (feedPath (feed x) = postsListener g (ui x) ∧
                  postsEffect g (ui x) ≠ eff_throw)));
    [apply step_feedPath|right; apply mount_feedPath].
Qed.

Lemma reachable_listening g x :
  reachable g x → unmounted (feed x) = false →
  isAuthReady (ui x) = true → truthy (userId (ui x)) = true →
  feedPath (feed x) = Some (postsCollectionPath g (ui x)) ∧
  collectionPathOk (postsCollectionPath g (ui x)) = true.
Proof.
  intros Hx Hm Hr Hu.
  destruct (reachable_feedPath g x Hx) as [Hdown|[Hsync Hno]]; [congruence|].
  destruct (reachable_has_db g x Hx (or_introl Hr)) as [d Hdb].
  destruct (collectionPathOk (postsCollectionPath g (ui x))) eqn:Hok.
  - split; [|done]. rewrite Hsync. unfold postsListener.
    by rewrite (postsEffect_ok g (ui x) d).
  - by rewrite (postsEffect_refused g (ui x) d) in Hno.
Qed.

Lemma react_isAuthReady g x e :
  isAuthReady (ui x) = true → isAuthReady (r_state (react g x e)) = true.
Proof.
  intros Hr. destruct e; try done.
  - by destruct user.
  - rewrite r_state_settled. destruct (inflight x !! i) as [a|]; [|done].
    by destruct a, o.
  - simpl. unfold onTitleChange. by destruct (editingPost (ui x)).
  - simpl. unfold onContentChange. by destruct (editingPost (ui x)).
  - simpl. by rewrite next_createPost.
  - simpl. by rewrite next_updatePost.
  - simpl. by rewrite next_deletePost.
Qed.

Lemma react_userId_Some g x e :
  is_Some (userId (ui x)) → is_Some (userId (r_state (react g x e))).
Proof.
  intros Hu. destruct e; try done.
  - by destruct user.
  - rewrite r_state_settled. destruct (inflight x !! i) as [a|]; [|done].
    by destruct a, o.
  - simpl. unfold onTitleChange. by destruct (editingPost (ui x)).
  - simpl. unfold onContentChange. by destruct (editingPost (ui x)).
  - simpl. by rewrite next_createPost.
  - simpl. by rewrite next_updatePost.
  - simpl. by rewrite next_deletePost.
Qed.

Lemma step_authListener g x e : authListener (step g x e).1 = authListener x.
Proof.
  destruct (enabled x e) eqn:Hen.
  - by rewrite step_enabled.
  - by rewrite step_disabled.
Qed.

(** The auth listener is registered whenever the handles are set. *)
Lemma reachable_registered g x :
  reachable g x → is_Some (db (ui x)) → authListener x = true.
Proof.
  intros [es <-].
  apply (run_invariant (λ x, is_Some (db (ui x)) → authListener x = true)).
  - intros x e Hx. rewrite step_db, step_authListener. exact Hx.
  - unfold mount, initFirebase.
    destruct (__firebase_config g) as [[| |[]]|]; simpl;
      try (by intros [? [=]]).
    by destruct (truthy (__initial_auth_token g)).
Qed.

(** Only a page that has an identity can have been taken down by the posts
    effect. *)
Lemma reachable_unmounted g x :
  reachable g x → unmounted (feed x) = true → is_Some (userId (ui x)).
Proof.
  intros [es <-].
  apply (run_invariant
           (λ x, unmounted (feed x) = true → is_Some (userId (ui x)))).
  - intros x e Hx. destruct (enabled x e) eqn:Hen;
      [|by rewrite step_disabled].
    rewrite step_enabled by done. simpl. unfold syncListener.
    rewrite react_unmounted.
    destruct (unmounted (feed x)) eqn:Hm.
    { intros _. by apply react_userId_Some, Hx. }
    case_bool_decide; simpl; [by rewrite react_unmounted, Hm|].
    destruct (postsEffect g _) eqn:He; simpl; try done. intros _.
    apply postsEffect_throw in He as (_ & Hu & _).
    apply truthy_inv in Hu as (u & -> & _). by eexists.
  - destruct (mount_no_identity g) as (_ & _ & -> & _). done.
Qed.

Lemma react_did_counts g x e :
  opened (r_did (react g x e)) = 0%nat ∧ closed (r_did (react g x e)) = 0%nat.
Proof.
  unfold opened, closed. destruct e; simpl; try done.
  - by destruct user.
  - destruct (inflight x !! i) as [a|]; [|done]. by destruct a, o.
  - unfold createPost. by repeat case_match.
  - unfold updatePost. by repeat case_match.
  - unfold deletePost. by repeat case_match.
Qed.

Lemma opened_app out out' : opened (out ++ out') = (opened out + opened out')%nat.
Proof. unfold opened. by rewrite filter_app, length_app. Qed.

Lemma closed_app out out' : closed (out ++ out') = (closed out + closed out')%nat.
Proof. unfold closed. by rewrite filter_app, length_app. Qed.

Lemma syncListener_counts g l old new f :
  (opened (syncListener g l old new f).2
   + match feedPath f with Some _ => 1 | None => 0 end
   = closed (syncListener g l old new f).2
     + match feedPath (syncListener g l old new f).1 with
       | Some _ => 1
       | None => 0
       end)%nat.
Proof.
  unfold syncListener. destruct (unmounted f) eqn:Hm; [done|].
  case_bool_decide; [done|].
  destruct (postsEffect g new), f, l; reflexivity.
Qed.

Lemma step_counts g x e :
  (opened (step g x e).2 + holding x
   = closed (step g x e).2 + holding (step g x e).1)%nat.
Proof.
  destruct (enabled x e) eqn:Hen; [|by rewrite step_disabled].
  rewrite step_enabled by done. simpl. unfold holding. simpl.
  rewrite opened_app, closed_app.
  destruct (react_did_counts g x e) as [-> ->]. simpl.
  rewrite <- (react_feedPath g x e). apply syncListener_counts.
Qed.

Lemma run_counts g es x :
  (opened (run g x es).2 + holding x
   = closed (run g x es).2 + holding (run g x es).1)%nat.
Proof.
  revert x. induction es as [|e es IH]; intros x; [done|].
  simpl. pose proof (step_counts g x e) as Hstep.
  destruct (step g x e) as [x' out]. specialize (IH x').
  destruct (run g x' es) as [x'' out']. simpl in *.
  rewrite opened_app, closed_app. lia.
Qed.

(** What the posts effect unsubscribes is the listener it holds. *)
Lemma step_unsubscribes_held g x e p :
  unsubscribe p ∈ (step g x e).2 → feedPath (feed x) = Some p.
Proof.
  destruct (enabled x e) eqn:Hen;
    [|rewrite step_disabled by done; by intros ?%elem_of_nil].
  rewrite step_enabled by done. simpl. rewrite elem_of_app.
  intros [Hin|Hin].
  - exfalso. pose proof (proj2 (react_did_counts g x e)) as Hc.
    unfold closed in Hc. apply length_zero_iff_nil in Hc.
    by eapply (filter_nil_not_elem_of _ _ (unsubscribe p)) in Hc.
  - rewrite <- (react_feedPath g x e). revert Hin. unfold syncListener.
    destruct (unmounted _); [by intros ?%elem_of_nil|].
    case_bool_decide; [by intros ?%elem_of_nil|].
    destruct (postsEffect g _), (r_feed (react g x e)), (authListener x);
      simpl; rewrite ?elem_of_cons, ?elem_of_nil; intros Hin;
      repeat destruct Hin as [Hin|Hin]; by simplify_eq.
Qed.

(** A page whose first effect gave up is inert. *)
Lemma mount_unusable g :
  usableConfig g = false →
  ui (mount g).1 = initialState ∧ feed (mount g).1 = feed_none ∧
  authListener (mount g).1 = false ∧ inflight (mount g).1 = [] ∧
  ∃ msg, (mount g).2 = [console_error msg] ∨
         (mount g).2 = [initializeApp; console_error msg].
Proof.
  unfold usableConfig, mount, initFirebase.
  destruct (__firebase_config g) as [[| |[]]|]; try done; intros _; simpl;
    split_and!; eauto.
Qed.

Lemma step_inert g x e :
  authListener x = false → inflight x = [] → feed x = feed_none →
  isAuthReady (ui x) = false → showDeleteModal (ui x) = false →
  (step g x e).2 = [] ∧
  authListener (step g x e).1 = false ∧ inflight (step g x e).1 = [] ∧
  feed (step g x e).1 = feed_none ∧
  isAuthReady (ui (step g x e).1) = false ∧
  showDeleteModal (ui (step g x e).1) = false.
Proof.
  intros Hl Hi Hf Hr Hm.
  destruct (enabled x e) eqn:Hen; [|by rewrite step_disabled].
  rewrite step_enabled by done. simpl.
  unfold enabled, adminRendered, blogRendered in Hen.
  destruct e; simpl in *;
    rewrite ?Hl, ?Hi, ?Hf, ?Hr, ?Hm in Hen; simpl in Hen; try done;
    rewrite syncListener_deps by done; by rewrite ?Hf, ?Hi.
Qed.

Lemma run_inert g es x :
  authListener x = false → inflight x = [] → feed x = feed_none →
  isAuthReady (ui x) = false → showDeleteModal (ui x) = false →
  (run g x es).2 = [] ∧ isAuthReady (ui (run g x es).1) = false.
Proof.
  revert x. induction es as [|e es IH]; intros x Hl Hi Hf Hr Hm; [done|].
  destruct (step_inert g x e Hl Hi Hf Hr Hm) as (Hout & ? & ? & ? & ? & ?).
  simpl. destruct (step g x e) as [x' out]. simpl in *.
  destruct (IH x') as [Hout' ?]; try done.
  destruct (run g x' es) as [x'' out']. simpl in *. by rewrite Hout, Hout'.
Qed.

(** ** Bootstrap *)

(** X3. Without a usable Firebase configuration the first effect logs and
    gives up, and from then on the page shows the loading notice for good
    and calls nothing: no event produces any effect. *)
Theorem unusable_config_stays_loading (g : Globals) (es : list Event) :
  usableConfig g = false →
  (∃ msg, (mount g).2 = [console_error msg] ∨
          (mount g).2 = [initializeApp; console_error msg]) ∧
  (run g (mount g).1 es).2 = [] ∧
  screen (ui (run g (mount g).1 es).1) = scr_loading.
Proof.
  intros Hcfg.
  destruct (mount_unusable g Hcfg) as (Hui & Hf & Hl & Hi & Hout).
  split; [done|].
  destruct (run_inert g es (mount g).1) as [Hrun Hr]; try done.
  { by rewrite Hui. } { by rewrite Hui. }
  split; [done|]. unfold screen. by rewrite Hr.
Qed.

Lemma unusable_config_stays_loading_witness :
  (∃ msg, (mount noConfig).2 = [console_error msg] ∨
          (mount noConfig).2 = [initializeApp; console_error msg]) ∧
  (run noConfig (mount noConfig).1
     [ev_navigate blog; ev_authStateChanged (Some "u1"); ev_setBlogView admin;
      ev_clickCreate 5]).2 = [] ∧
  screen (ui (run noConfig (mount noConfig).1
                [ev_navigate blog; ev_authStateChanged (Some "u1");
                 ev_setBlogView admin; ev_clickCreate 5]).1) = scr_loading.
Proof.
  apply unusable_config_stays_loading. vm_compute; reflexivity.
Defined.

(** X4. The loading notice ends exactly when an auth callback completes,
    with a user or after the anonymous sign-in has settled either way; once
    it has ended it never comes back, an identity once set is never
    cleared, and the Firestore handle never changes. *)
Theorem loading_ends_with_auth_callback
    (g : Globals) (x : Session) (e : Event) :
  (isAuthReady (ui x) = false →
   (isAuthReady (ui (step g x e).1) = true ↔
    enabled x e = true ∧
    ((∃ uid, e = ev_authStateChanged (Some uid)) ∨
     (∃ i o, e = ev_settled i o ∧
             inflight x !! i = Some await_signInAnonymously)))) ∧
  (∀ es, isAuthReady (ui x) = true →
         isAuthReady (ui (run g x es).1) = true) ∧
  (∀ es, is_Some (userId (ui x)) → is_Some (userId (ui (run g x es).1))) ∧
  (∀ es, db (ui (run g x es).1) = db (ui x)).
Proof.
  split_and!.
  - intros Hr. rewrite step_ui. destruct (enabled x e) eqn:Hen.
    + split.
      * intros Hready. split; [done|].
        destruct e; simpl in Hready; try congruence.
        -- destruct user; [eauto|simpl in Hready; congruence].
        -- right. exists i, o. split; [done|].
           destruct (inflight x !! i) as [a|] eqn:Ha;
             [|simpl in Hready; congruence].
           destruct a, o; simpl in Hready; congruence.
        -- unfold onTitleChange in Hready.
           destruct (editingPost (ui x)); simpl in Hready; congruence.
        -- unfold onContentChange in Hready.
           destruct (editingPost (ui x)); simpl in Hready; congruence.
        -- rewrite next_createPost in Hready. congruence.
        -- rewrite next_updatePost in Hready. congruence.
        -- rewrite next_deletePost in Hready. congruence.
      * intros [_ [[uid ->]|(i & o & -> & Ha)]]; [done|].
        rewrite r_state_settled, Ha. by destruct o.
    + split; [congruence|]. by intros [? _].
  - intros es Hr.
    apply (run_invariant (λ x, isAuthReady (ui x) = true)); [|done].
    intros x' e' Hx'. rewrite step_ui. destruct (enabled x' e'); [|done].
    by apply react_isAuthReady.
  - intros es Hu.
    apply (run_invariant (λ x, is_Some (userId (ui x)))); [|done].
    intros x' e' Hx'. rewrite step_ui. destruct (enabled x' e'); [|done].
    by apply react_userId_Some.
  - intros es.
    apply (run_invariant (λ x', db (ui x') = db (ui x))); [|done].
    intros x' e' Hx'. by rewrite step_db.
Qed.

Lemma loading_ends_with_auth_callback_witness :
  (isAuthReady
     (ui (step sampleGlobals (mount sampleGlobals).1
            (ev_authStateChanged (Some "u1"))).1) = true ↔
   enabled (mount sampleGlobals).1 (ev_authStateChanged (Some "u1")) = true ∧
   ((∃ uid, ev_authStateChanged (Some "u1") = ev_authStateChanged (Some uid)) ∨
    (∃ i o, ev_authStateChanged (Some "u1") = ev_settled i o ∧
            inflight (mount sampleGlobals).1 !! i
            = Some await_signInAnonymously))) ∧
  isAuthReady
    (ui (run sampleGlobals atAdminPanel
           [ev_snapshotError; ev_authStateChanged None;
            ev_settled 0 (rejected "network-request-failed")]).1) = true ∧
  is_Some
    (userId
       (ui (run sampleGlobals atAdminPanel
              [ev_snapshotError; ev_authStateChanged None;
               ev_settled 0 (rejected "network-request-failed")]).1)).
Proof.
  split_and!.
  - apply (proj1 (loading_ends_with_auth_callback sampleGlobals
                    (mount sampleGlobals).1 (ev_authStateChanged (Some "u1")))).
    vm_compute; reflexivity.
  - apply (proj1 (proj2 (loading_ends_with_auth_callback sampleGlobals
                           atAdminPanel (ev_navigate home)))).
    vm_compute; reflexivity.
  - apply (proj1 (proj2 (proj2 (loading_ends_with_auth_callback sampleGlobals
                                  atAdminPanel (ev_navigate home))))).
    vm_compute. by eexists.
Defined.

(** X5. An auth callback that reports the user the page already has, on a
    page that is already ready, changes nothing and triggers nothing: the
    posts effect is not re-run. *)
Theorem same_user_again_is_ignored
    (g : Globals) (x : Session) (uid : string) :
  authListener x = true → isAuthReady (ui x) = true →
  userId (ui x) = Some uid →
  step g x (ev_authStateChanged (Some uid)) = (x, []).
Proof.
  intros Hl Hr Hu.
  destruct (enabled x (ev_authStateChanged (Some uid))) eqn:Hen;
    [|by rewrite step_disabled].
  rewrite step_enabled by done. simpl.
  assert (setIsAuthReady true (setUserId (Some uid) (ui x)) = ui x) as ->.
  { destruct x as [s f l i]. destruct s. simpl in *. by subst. }
  rewrite syncListener_same, app_nil_r. simpl. by destruct x.
Qed.

Lemma same_user_again_is_ignored_witness :
  step sampleGlobals atAdminPanel (ev_authStateChanged (Some "u1"))
  = (atAdminPanel, []).
Proof.
  apply same_user_again_is_ignored; vm_compute; reflexivity.
Defined.

(** ** The posts effect *)

(** X6. In every reachable page the listener held by the posts effect is
    on the posts collection of the current user, a path the SDK accepts, and
    the page is ready and has an identity; a mounted page that holds none is
    not ready or has no identity; a mounted page that is ready with an
    identity holds the listener; and a page that is ready with an identity
    whose posts path the SDK refuses has been taken down by the error thrown
    in the effect. *)
Theorem listener_follows_identity (g : Globals) (x : Session) :
  reachable g x →
  (∀ p, feedPath (feed x) = Some p →
        isAuthReady (ui x) = true ∧ truthy (userId (ui x)) = true ∧
        p = postsCollectionPath g (ui x) ∧ collectionPathOk p = true) ∧
  (feed x = feed_none →
   isAuthReady (ui x) = false ∨ truthy (userId (ui x)) = false) ∧
  (feed x ≠ feed_threw →
   isAuthReady (ui x) = true → truthy (userId (ui x)) = true →
   feedPath (feed x) = Some (postsCollectionPath g (ui x)) ∧
   collectionPathOk (postsCollectionPath g (ui x)) = true) ∧
  (isAuthReady (ui x) = true → truthy (userId (ui x)) = true →
   collectionPathOk (postsCollectionPath g (ui x)) = false →
   feed x = feed_threw).
Proof.
  intros Hx.
  assert (isAuthReady (ui x) = true → truthy (userId (ui x)) = true →
          postsEffect g (ui x) ≠ eff_skip) as Hguard.
  { intros Hr Hu. destruct (reachable_has_db g x Hx (or_introl Hr)) as [d Hdb].
    unfold postsEffect. rewrite Hr, Hu, Hdb. simpl.
    by destruct (collectionPathOk _). }
  destruct (reachable_feedPath g x Hx) as [Hdown|[Hsync Hno]].
  { by destruct (feed x). }
  split_and!.
  - intros p Hp. rewrite Hp in Hsync. symmetry in Hsync.
    apply postsListener_Some in Hsync as (? & ? & _ & ? & ?). done.
  - intros Hnone. rewrite Hnone in Hsync.
    destruct (isAuthReady (ui x)) eqn:Hr; [|by left]. right.
    destruct (truthy (userId (ui x))) eqn:Hu; [|done].
    specialize (Hguard eq_refl eq_refl). unfold postsListener in Hsync.
    by destruct (postsEffect g (ui x)).
  - intros _ Hr Hu. specialize (Hguard Hr Hu).
    destruct (postsEffect g (ui x)) as [| |p] eqn:He; try done.
    apply postsEffect_listen in He as Hp. destruct Hp as (_ & _ & _ & -> & ?).
    split; [|done]. rewrite Hsync. unfold postsListener. by rewrite He.
  - intros Hr Hu Hbad. exfalso. apply Hno.
    destruct (reachable_has_db g x Hx (or_introl Hr)) as [d Hdb].
    by apply (postsEffect_refused g (ui x) d).
Qed.

Lemma listener_follows_identity_witness :
  (∀ p, feedPath (feed atTwoPosts) = Some p →
        isAuthReady (ui atTwoPosts) = true ∧
        truthy (userId (ui atTwoPosts)) = true ∧
        p = postsCollectionPath sampleGlobals (ui atTwoPosts) ∧
        collectionPathOk p = true) ∧
  (feed atTwoPosts = feed_none →
   isAuthReady (ui atTwoPosts) = false ∨
   truthy (userId (ui atTwoPosts)) = false) ∧
  (feed atTwoPosts ≠ feed_threw →
   isAuthReady (ui atTwoPosts) = true →
   truthy (userId (ui atTwoPosts)) = true →
   feedPath (feed atTwoPosts)
   = Some (postsCollectionPath sampleGlobals (ui atTwoPosts)) ∧
   collectionPathOk (postsCollectionPath sampleGlobals (ui atTwoPosts))
   = true) ∧
  (isAuthReady (ui atTwoPosts) = true →
   truthy (userId (ui atTwoPosts)) = true →
   collectionPathOk (postsCollectionPath sampleGlobals (ui atTwoPosts))
   = false →
   feed atTwoPosts = feed_threw).
Proof.
  apply listener_follows_identity. exists toTwoPosts. vm_compute; reflexivity.
Defined.

(** X7. Listeners are opened and closed in step: over any run the page has
    opened exactly as many listeners as it has closed, plus the one it
    holds; and what a step unsubscribes is the listener held before it. *)
Theorem listeners_do_not_pile_up (g : Globals) (es : list Event) :
  (opened ((mount g).2 ++ (run g (mount g).1 es).2)
   = closed ((mount g).2 ++ (run g (mount g).1 es).2)
     + holding (run g (mount g).1 es).1)%nat ∧
  (∀ x e p, unsubscribe p ∈ (step g x e).2 → feedPath (feed x) = Some p).
Proof.
  split; [|apply step_unsubscribes_held].
  pose proof (run_counts g es (mount g).1) as Hrun.
  destruct (mount_no_identity g) as (_ & _ & Hf & Hm).
  rewrite opened_app, closed_app.
  assert (opened (mount g).2 = 0%nat ∧ closed (mount g).2 = 0%nat) as [-> ->].
  { unfold opened, closed, mount, initFirebase.
    destruct (__firebase_config g) as [[| |[]]|]; simpl; try done.
    by destruct (truthy (__initial_auth_token g)). }
  unfold holding in Hrun at 1. rewrite Hf in Hrun. simpl in *. lia.
Qed.

Lemma listeners_do_not_pile_up_witness :
  feedPath (feed atAdminPanel)
  = Some "artifacts/default-app-id/users/u1/blogPosts" ∧
  (step sampleGlobals atAdminPanel (ev_authStateChanged (Some "u2"))).2
  = [unsubscribe "artifacts/default-app-id/users/u1/blogPosts";
     onSnapshot "artifacts/default-app-id/users/u2/blogPosts"].
Proof.
  split; [|vm_compute; reflexivity].
  apply (proj2 (listeners_do_not_pile_up sampleGlobals [])
           atAdminPanel (ev_authStateChanged (Some "u2"))).
  vm_compute. apply list_elem_of_here.
Defined.

(** X8. When the auth listener reports another user, the page closes the
    listener on the previous user's posts and, when the SDK accepts the
    posts path of the new user, opens one there; when the SDK refuses that
    path, [collection] throws in the effect right after the cleanup and the
    page is taken down, the auth listener unsubscribed with it. Either way
    the posts of the previous user are still in the list. *)
Theorem identity_change_resubscribes
    (g : Globals) (x : Session) (u u' : string) :
  reachable g x → enabled x (ev_authStateChanged (Some u')) = true →
  isAuthReady (ui x) = true → userId (ui x) = Some u →
  u ≠ "" → u' ≠ "" → u' ≠ u →
  (collectionPathOk (postsCollectionPath g (setUserId (Some u') (ui x)))
   = true →
   (step g x (ev_authStateChanged (Some u'))).2
   = [unsubscribe (postsCollectionPath g (ui x));
      onSnapshot (postsCollectionPath g (setUserId (Some u') (ui x)))] ∧
   feed (step g x (ev_authStateChanged (Some u'))).1
   = feed_open (postsCollectionPath g (setUserId (Some u') (ui x)))) ∧
  (collectionPathOk (postsCollectionPath g (setUserId (Some u') (ui x)))
   = false →
   (step g x (ev_authStateChanged (Some u'))).2
   = [unsubscribe (postsCollectionPath g (ui x)); uncaught_error;
      unsubscribeAuth] ∧
   feed (step g x (ev_authStateChanged (Some u'))).1 = feed_threw) ∧
  posts (ui (step g x (ev_authStateChanged (Some u'))).1) = posts (ui x).
Proof.
  intros Hx Hen Hr Hu Hne Hne' Hdiff.
  pose proof Hen as Hen'. simpl in Hen'.
  apply andb_true_iff in Hen' as [Hm Hl]. apply negb_true_iff in Hm.
  destruct (reachable_has_db g x Hx (or_introl Hr)) as [d Hdb].
  destruct (reachable_listening g x Hx Hm Hr) as [Hheld _].
  { rewrite Hu. by apply truthy_nonempty. }
  rewrite step_enabled by done. simpl. unfold syncListener.
  rewrite Hm, Hl.
  rewrite bool_decide_eq_false_2
    by (unfold listenerDeps; simpl; rewrite Hu; congruence).
  split_and!; [intros Hok|intros Hbad|].
  - rewrite (postsEffect_ok g _ d); [|done|by apply truthy_nonempty|done..].
    destruct (feed x); simpl in Hheld; by simplify_eq.
  - rewrite (postsEffect_refused g _ d);
      [|done|by apply truthy_nonempty|done..].
    destruct (feed x); simpl in Hheld; by simplify_eq.
  - done.
Qed.

Lemma identity_change_resubscribes_witness :
  ((step sampleGlobals atTwoPosts (ev_authStateChanged (Some "u2"))).2
   = [unsubscribe (postsCollectionPath sampleGlobals (ui atTwoPosts));
      onSnapshot
        (postsCollectionPath sampleGlobals
           (setUserId (Some "u2") (ui atTwoPosts)))] ∧
   feed (step sampleGlobals atTwoPosts (ev_authStateChanged (Some "u2"))).1
   = feed_open
       (postsCollectionPath sampleGlobals
          (setUserId (Some "u2") (ui atTwoPosts)))) ∧
  ((step sampleGlobals atTwoPosts (ev_authStateChanged (Some "a/b"))).2
   = [unsubscribe (postsCollectionPath sampleGlobals (ui atTwoPosts));
      uncaught_error; unsubscribeAuth] ∧
   feed (step sampleGlobals atTwoPosts (ev_authStateChanged (Some "a/b"))).1
   = feed_threw) ∧
  posts (ui (step sampleGlobals atTwoPosts
               (ev_authStateChanged (Some "u2"))).1)
  = posts (ui atTwoPosts).
Proof.
  assert (reachable sampleGlobals atTwoPosts) as Hx
    by (exists toTwoPosts; vm_compute; reflexivity).
  assert (isAuthReady (ui atTwoPosts) = true) as Hr
    by (vm_compute; reflexivity).
  assert (userId (ui atTwoPosts) = Some "u1") as Hu
    by (vm_compute; reflexivity).
  assert (enabled atTwoPosts (ev_authStateChanged (Some "u2")) = true) as Hen
    by (vm_compute; reflexivity).
  assert (enabled atTwoPosts (ev_authStateChanged (Some "a/b")) = true)
    as Hen' by (vm_compute; reflexivity).
  split; [|split].
  - apply (proj1 (identity_change_resubscribes sampleGlobals atTwoPosts
                    "u1" "u2" Hx Hen Hr Hu
                    ltac:(discriminate) ltac:(discriminate)
                    ltac:(discriminate))).
    vm_compute; reflexivity.
  - apply (proj1 (proj2 (identity_change_resubscribes sampleGlobals atTwoPosts
                           "u1" "a/b" Hx Hen' Hr Hu
                           ltac:(discriminate) ltac:(discriminate)
                           ltac:(discriminate)))).
    vm_compute; reflexivity.
  - apply (proj2 (proj2 (identity_change_resubscribes sampleGlobals atTwoPosts
                           "u1" "u2" Hx Hen Hr Hu
                           ltac:(discriminate) ltac:(discriminate)
                           ltac:(discriminate)))).
Defined.

(** ** The CRUD callbacks, further *)

(** X9. [createPost] and [updatePost] do exactly one thing each time they
    run: either they hand one write to the store and wait for it, or they
    log one message. The write goes out exactly when title and content are
    both present and non-empty and [collection], respectively [doc], returns
    a reference, which it does when the Firestore handle is set and the SDK
    accepts the path; a missing field counts like an empty one. *)
Theorem write_or_message
    (g : Globals) (now : Z) (postId : option string) (s : State) :
  (existsb isWrite (did (createPost g now s))
   = truthy (title (newPost s)) && truthy (content (newPost s))
     && bool_decide (is_Some (collection (db s) (postsCollectionPath g s))) ∧
   bool_decide (awaits (createPost g now s) = Some await_addDoc)
   = existsb isWrite (did (createPost g now s)) ∧
   length (did (createPost g now s)) = 1%nat ∧
   (existsb isWrite (did (createPost g now s)) = false →
    ∃ msg, createPost g now s = mkTurn s [console_error msg] None)) ∧
  (∀ e, editingPost s = Some e →
     existsb isWrite (did (updatePost g postId s))
     = truthy (title e) && truthy (content e)
       && bool_decide (is_Some (doc (db s) (postsDocPath g s postId))) ∧
     bool_decide (awaits (updatePost g postId s) = Some await_updateDoc)
     = existsb isWrite (did (updatePost g postId s)) ∧
     length (did (updatePost g postId s)) = 1%nat ∧
     (existsb isWrite (did (updatePost g postId s)) = false →
      ∃ msg, updatePost g postId s = mkTurn s [console_error msg] None)) ∧
  (∀ path, is_Some (collection (db s) path)
           ↔ is_Some (db s) ∧ collectionPathOk path = true) ∧
  (∀ path, is_Some (doc (db s) path)
           ↔ is_Some (db s) ∧ documentPathOk path = true).
Proof.
  split; [|split; [|split]].
  - unfold createPost.
    destruct (truthy (title (newPost s))), (truthy (content (newPost s))),
      (collection (db s) _); simpl; split_and!; try done; eauto.
  - intros e He. unfold updatePost. rewrite He.
    destruct (truthy (title e)), (truthy (content e)), (doc (db s) _); simpl;
      split_and!; try done; eauto.
  - intros path. unfold collection.
    destruct (db s) as [d|]; [destruct (collectionPathOk path)|].
    + split; [intros _; split; [by eexists|done]|intros _; by eexists].
    + split; [by intros [? [=]]|by intros [_ [=]]].
    + split; [by intros [? [=]]|by intros [[? [=]] _]].
  - intros path. unfold doc.
    destruct (db s) as [d|]; [destruct (documentPathOk path)|].
    + split; [intros _; split; [by eexists|done]|intros _; by eexists].
    + split; [by intros [? [=]]|by intros [_ [=]]].
    + split; [by intros [? [=]]|by intros [[? [=]] _]].
Qed.

Lemma write_or_message_witness :
  existsb isWrite (did (updatePost sampleGlobals (Some "a") editingIncomplete))
  = false ∧
  ∃ msg,
    updatePost sampleGlobals (Some "a") editingIncomplete
    = mkTurn editingIncomplete [console_error msg] None.
Proof.
  assert (existsb isWrite
            (did (updatePost sampleGlobals (Some "a") editingIncomplete))
          = false) as Hno by (vm_compute; reflexivity).
  assert (editingPost editingIncomplete
          = Some (mkObj (Some "a") (Some "Hi") None None (Some 100))) as Hed
    by (vm_compute; reflexivity).
  split; [exact Hno|].
  destruct (proj1 (proj2 (write_or_message sampleGlobals 0 (Some "a")
                            editingIncomplete)) _ Hed) as (_ & _ & _ & Hmsg).
  exact (Hmsg Hno).
Defined.

Lemma createPost_wellFormed g now s :
  Forall (λ e, wellFormedWrite e = true) (did (createPost g now s)).
Proof.
  unfold createPost.
  destruct (truthy (title (newPost s))) eqn:Ht,
    (truthy (content (newPost s))) eqn:Hc, (collection (db s) _);
    simpl; repeat constructor.
  simpl. by rewrite Ht, Hc.
Qed.

Lemma updatePost_wellFormed g postId s :
  Forall (λ e, wellFormedWrite e = true) (did (updatePost g postId s)).
Proof.
  unfold updatePost. destruct (editingPost s) as [e|]; [|by repeat constructor].
  destruct (truthy (title e)) eqn:Ht, (truthy (content e)) eqn:Hc,
    (doc (db s) _); simpl; repeat constructor.
  simpl. by rewrite Ht, Hc.
Qed.

Lemma step_wellFormed g x e :
  Forall (λ e, wellFormedWrite e = true) (step g x e).2.
Proof.
  destruct (enabled x e) eqn:Hen; [|by rewrite step_disabled].
  rewrite step_enabled by done. simpl. apply Forall_app. split.
  - destruct e; simpl; try done.
    + destruct user; by repeat constructor.
    + destruct (inflight x !! i) as [a|]; [|done].
      destruct a, o; by repeat constructor.
    + by repeat constructor.
    + apply createPost_wellFormed.
    + apply updatePost_wellFormed.
    + unfold deletePost. repeat case_match; by repeat constructor.
  - unfold syncListener. destruct (unmounted _); [done|].
    case_bool_decide; [done|].
    destruct (postsEffect g _), (r_feed _), (authListener x);
      by repeat constructor.
Qed.

(** X10. Whatever happens to the page, every document it asks the store to
    create has a non-empty title and content, the author ['Murad Amin'] and
    a timestamp, and every update carries a non-empty title and content and
    no author or timestamp; no write ever carries an [id] field. *)
Theorem every_write_is_well_formed
    (g : Globals) (x : Session) (es : list Event) :
  Forall (λ e, wellFormedWrite e = true) (mount g).2 ∧
  Forall (λ e, wellFormedWrite e = true) (run g x es).2.
Proof.
  split.
  - unfold mount, initFirebase.
    destruct (__firebase_config g) as [[| |[]]|]; simpl;
      try by repeat constructor.
    destruct (truthy (__initial_auth_token g)); simpl; by repeat constructor.
  - revert x. induction es as [|e es IH]; intros x; [done|].
    simpl. pose proof (step_wellFormed g x e) as Hstep.
    destruct (step g x e) as [x' out]. specialize (IH x').
    destruct (run g x' es) as [x'' out']. simpl in *. by apply Forall_app.
Qed.

(** X11. A write that the store rejects only leaves a message in the log:
    the component state, with the draft, the edit in progress and the
    pending deletion, is untouched, and nothing else is called. *)
Theorem rejected_write_only_logs
    (g : Globals) (x : Session) (i : nat) (a : Await) (err : string) :
  inflight x !! i = Some a →
  a = await_addDoc ∨ a = await_updateDoc ∨ a = await_deleteDoc →
  ∃ msg,
    step g x (ev_settled i (rejected err))
    = (mkSession (ui x) (feed x) (authListener x) (delete i (inflight x)),
       [console_error msg]).
Proof.
  intros Ha Hwrite.
  rewrite step_enabled by (simpl; rewrite Ha; by apply bool_decide_eq_true_2).
  simpl. rewrite Ha.
  destruct Hwrite as [-> | [-> | ->]]; simpl;
    rewrite syncListener_same; by eexists.
Qed.

Lemma rejected_write_only_logs_witness :
  ∃ msg,
    step sampleGlobals
      (step sampleGlobals atHiWorldDraft (ev_clickCreate 1700000000000)).1
      (ev_settled 0 (rejected "unavailable"))
    = (mkSession
         (ui (step sampleGlobals atHiWorldDraft
                (ev_clickCreate 1700000000000)).1)
         (feed (step sampleGlobals atHiWorldDraft
                  (ev_clickCreate 1700000000000)).1)
         (authListener (step sampleGlobals atHiWorldDraft
                          (ev_clickCreate 1700000000000)).1)
         (delete 0%nat
            (inflight (step sampleGlobals atHiWorldDraft
                         (ev_clickCreate 1700000000000)).1)),
       [console_error msg]).
Proof.
  apply (rejected_write_only_logs sampleGlobals _ 0%nat await_addDoc).
  - vm_compute; reflexivity.
  - by left.
Defined.

(** X12. The draft of a new post changes only when the visitor types while
    no post is being edited, or when a create has succeeded: an edit
    session, an update, a deletion or a snapshot never alter it. *)
Theorem draft_changes_only_by_typing_or_create
    (g : Globals) (x : Session) (e : Event) :
  newPost (ui (step g x e).1) ≠ newPost (ui x) →
  (editingPost (ui x) = None ∧
   ∃ v, e = ev_typeTitle v ∨ e = ev_typeContent v) ∨
  (∃ i v, e = ev_settled i (resolved v) ∧
          inflight x !! i = Some await_addDoc).
Proof.
  rewrite step_ui. destruct (enabled x e); [|done].
  destruct e; simpl; try done.
  - by destruct user.
  - destruct (inflight x !! i) as [a|] eqn:Ha; [|done].
    destruct a, o; simpl; try done. intros _. right. by eexists _, _.
  - unfold onTitleChange.
    destruct (editingPost (ui x)); [done|]. intros _. left. eauto.
  - unfold onContentChange.
    destruct (editingPost (ui x)); [done|]. intros _. left. eauto.
  - by rewrite next_createPost.
  - by rewrite next_updatePost.
  - by rewrite next_deletePost.
Qed.

Lemma draft_changes_only_by_typing_or_create_witness :
  (editingPost (ui atAdminPanel) = None ∧
   ∃ v, ev_typeTitle "Hi" = ev_typeTitle v ∨
        ev_typeTitle "Hi" = ev_typeContent v) ∨
  (∃ i v, ev_typeTitle "Hi" = ev_settled i (resolved v) ∧
          inflight atAdminPanel !! i = Some await_addDoc).
Proof.
  apply (draft_changes_only_by_typing_or_create sampleGlobals atAdminPanel
           (ev_typeTitle "Hi")).
  vm_compute. discriminate.
Defined.

(** ** Editing, deleting, navigating: helper facts *)

Lemma run_app g es1 es2 x :
  run g x (es1 ++ es2)
  = ((run g (run g x es1).1 es2).1,
     (run g x es1).2 ++ (run g (run g x es1).1 es2).2).
Proof.
  revert x. induction es1 as [|e es1 IH]; intros x; simpl.
  - by destruct (run g x es2).
  - destruct (step g x e) as [x' out]. rewrite IH.
    destruct (run g x' es1) as [x1 out1]. simpl.
    destruct (run g x1 es2) as [x2 out2]. simpl. by rewrite app_assoc.
Qed.

(** An event whose handler only sets cells outside the dependency array of
    the posts effect does nothing beyond setting them. *)
Lemma step_ofState g x e s' :
  enabled x e = true → react g x e = ofState x s' →
  listenerDeps (ui x) = listenerDeps s' →
  step g x e = (mkSession s' (feed x) (authListener x) (inflight x), []).
Proof.
  intros Hen Hre Hdeps. rewrite step_enabled, Hre by done. simpl.
  by rewrite syncListener_deps.
Qed.

Lemma setEditingPost_twice v v' s :
  setEditingPost v (setEditingPost v' s) = setEditingPost v s.
Proof. reflexivity. Qed.

Lemma setEditingPost_same s : setEditingPost (editingPost s) s = s.
Proof. by destruct s. Qed.

Lemma step_typing g x e p :
  isTyping e = true → editingPost (ui x) = Some p →
  ∃ p',
    step g x e
    = (mkSession (setEditingPost (Some p') (ui x)) (feed x) (authListener x)
         (inflight x), []) ∧
    id p' = id p ∧ author p' = author p ∧ timestamp p' = timestamp p.
Proof.
  intros Hty Hp. destruct (enabled x e) eqn:Hen.
  - destruct e; try done.
    + exists (spread p (mkObj None (Some v) None None None)). split.
      * apply step_ofState; [done| |done].
        simpl. unfold onTitleChange. by rewrite Hp.
      * simpl. by destruct (id p), (author p), (timestamp p).
    + exists (spread p (mkObj None None (Some v) None None)). split.
      * apply step_ofState; [done| |done].
        simpl. unfold onContentChange. by rewrite Hp.
      * simpl. by destruct (id p), (author p), (timestamp p).
  - exists p. rewrite step_disabled by done.
    rewrite <- Hp, setEditingPost_same. by destruct x.
Qed.

Lemma run_typing g es x p :
  Forall (λ e, isTyping e = true) es → editingPost (ui x) = Some p →
  ∃ p',
    run g x es
    = (mkSession (setEditingPost (Some p') (ui x)) (feed x) (authListener x)
         (inflight x), []) ∧
    id p' = id p ∧ author p' = author p ∧ timestamp p' = timestamp p.
Proof.
  intros Hes. revert x p. induction Hes as [|e es He Hes IH]; intros x p Hp.
  - exists p. simpl. rewrite <- Hp, setEditingPost_same. by destruct x.
  - destruct (step_typing g x e p He Hp) as (p1 & Hstep & Hid & Hau & Hts).
    simpl. rewrite Hstep.
    destruct (IH (mkSession (setEditingPost (Some p1) (ui x)) (feed x)
                    (authListener x) (inflight x)) p1 eq_refl)
      as (p2 & Hrun & Hid' & Hau' & Hts').
    rewrite Hrun. simpl. exists p2. split; [done|]. split_and!; congruence.
Qed.

Lemma step_prompt g x e :
  (showDeleteModal (ui x) = true → is_Some (postToDelete (ui x))) →
  showDeleteModal (ui (step g x e).1) = true →
  is_Some (postToDelete (ui (step g x e).1)).
Proof.
  intros Hx. rewrite step_ui. destruct (enabled x e); [|done].
  destruct e; simpl; try done.
  - by destruct user.
  - destruct (inflight x !! i) as [a|]; [|done]. by destruct a, o.
  - unfold onTitleChange. by destruct (editingPost (ui x)).
  - unfold onContentChange. by destruct (editingPost (ui x)).
  - by rewrite next_createPost.
  - by rewrite next_updatePost.
  - by rewrite next_deletePost.
Qed.

Lemma reachable_prompt g x :
  reachable g x →
  showDeleteModal (ui x) = true → is_Some (postToDelete (ui x)).
Proof.
  intros [es <-].
  apply (run_invariant
           (λ x, showDeleteModal (ui x) = true →
                 is_Some (postToDelete (ui x))));
    [apply step_prompt|].
  destruct (mount_wired g) as [_|(_ & _ & _ & Hm)]; [|congruence].
  unfold mount, initFirebase.
  destruct (__firebase_config g) as [[| |[]]|]; simpl; try done.
  by destruct (truthy (__initial_auth_token g)).
Qed.

Lemma reachable_step g x e : reachable g x → reachable g (step g x e).1.
Proof.
  intros [es <-]. exists (es ++ [e]). rewrite run_app. simpl.
  by destruct (step g _ e).
Qed.

(** ** Editing *)

(** X13. Typing never changes which post is being edited: after any amount
    of typing the edited object still has the id, the author and the
    timestamp of the post that was picked, nothing has been sent anywhere,
    and an update issued then goes to the document of that id. *)
Theorem typing_keeps_the_edit_target
    (g : Globals) (x : Session) (p : Obj) (es : list Event) :
  editingPost (ui x) = Some p →
  Forall (λ e, isTyping e = true) es →
  (run g x es).2 = [] ∧
  (∃ p', editingPost (ui (run g x es).1) = Some p' ∧
         id p' = id p ∧ author p' = author p ∧ timestamp p' = timestamp p) ∧
  (∀ path f,
     updateDoc path f ∈ (step g (run g x es).1 ev_clickUpdate).2 →
     path = postsDocPath g (ui x) (id p)).
Proof.
  intros Hp Hes.
  destruct (run_typing g es x p Hes Hp) as (p' & -> & Hid & Hau & Hts).
  simpl. split; [done|]. split; [by exists p'|].
  intros path f.
  destruct (enabled (mkSession (setEditingPost (Some p') (ui x)) (feed x)
                       (authListener x) (inflight x)) ev_clickUpdate) eqn:Hen;
    [|rewrite step_disabled by done; by intros ?%elem_of_nil].
  rewrite step_clickUpdate by done. simpl. rewrite Hid.
  unfold updatePost. simpl.
  destruct (negb _ || negb _); simpl;
    [rewrite list_elem_of_singleton; by intros [=]|].
  destruct (doc _ _) as [ref|] eqn:Hdoc; simpl;
    rewrite list_elem_of_singleton; intros Hin; simplify_eq.
  by apply doc_Some in Hdoc as (_ & _ & ->).
Qed.

Lemma typing_keeps_the_edit_target_witness :
  (run sampleGlobals atEditing [ev_typeContent "Changed"; ev_typeTitle "New"]).2
  = [] ∧
  (∃ p',
     editingPost
       (ui (run sampleGlobals atEditing
              [ev_typeContent "Changed"; ev_typeTitle "New"]).1) = Some p' ∧
     id p' = id (mkObj (Some "a") (Some "Hello") (Some "World")
                   (Some "Murad Amin") (Some 100)) ∧
     author p' = author (mkObj (Some "a") (Some "Hello") (Some "World")
                           (Some "Murad Amin") (Some 100)) ∧
     timestamp p' = timestamp (mkObj (Some "a") (Some "Hello") (Some "World")
                                 (Some "Murad Amin") (Some 100))) ∧
  (∀ path f,
     updateDoc path f
     ∈ (step sampleGlobals
          (run sampleGlobals atEditing
             [ev_typeContent "Changed"; ev_typeTitle "New"]).1
          ev_clickUpdate).2 →
     path = postsDocPath sampleGlobals (ui atEditing)
              (id (mkObj (Some "a") (Some "Hello") (Some "World")
                     (Some "Murad Amin") (Some 100)))).
Proof.
  apply typing_keeps_the_edit_target.
  - vm_compute; reflexivity.
  - repeat constructor.
Defined.

(** X14. Cancelling an edit undoes it completely: picking a post, typing
    into the form and pressing Cancel leaves the page exactly as it was
    before the post was picked, the draft of a new post included, and
    nothing has been sent to the store. *)
Theorem cancelled_edit_leaves_no_trace
    (g : Globals) (x : Session) (p : Obj) (es : list Event) :
  editingPost (ui x) = None →
  enabled x (ev_clickEdit p) = true →
  Forall (λ e, isTyping e = true) es →
  run g x (ev_clickEdit p :: es ++ [ev_cancelEdit]) = (x, []).
Proof.
  intros Hnone Hen Hes. simpl.
  rewrite (step_ofState g x (ev_clickEdit p) (setEditingPost (Some p) (ui x)))
    by done.
  rewrite run_app.
  destruct (run_typing g es
              (mkSession (setEditingPost (Some p) (ui x)) (feed x)
                 (authListener x) (inflight x)) p Hes eq_refl)
    as (p' & -> & _).
  simpl. rewrite setEditingPost_twice.
  rewrite (step_ofState g _ ev_cancelEdit (ui x)).
  - by destruct x.
  - simpl in *. apply andb_true_iff in Hen as [Hm Hen].
    apply andb_true_iff in Hen as [Hadmin _].
    unfold adminRendered, blogRendered in *. simpl. by rewrite Hm, Hadmin.
  - destruct x as [s f l i]. destruct s. simpl in *. by subst.
  - done.
Qed.

Lemma cancelled_edit_leaves_no_trace_witness :
  run sampleGlobals atTwoPosts
    (ev_clickEdit (toPost (sampleDoc "a" (Some 100)))
     :: [ev_typeTitle "New"; ev_typeContent ""] ++ [ev_cancelEdit])
  = (atTwoPosts, []).
Proof.
  apply cancelled_edit_leaves_no_trace.
  - vm_compute; reflexivity.
  - vm_compute; reflexivity.
  - repeat constructor.
Defined.

(** ** Creating without an identity, twice, and deleting *)

(** X15. When the anonymous sign-in has failed the page is shown all the
    same, and a post created then goes under the user segment [null]: it is
    written there when the SDK accepts that path, as it does for an app id
    that is a plain segment, and otherwise only the SDK's error is logged;
    no listener is open that could bring the post back. *)
Theorem create_without_identity_writes_under_null
    (g : Globals) (x : Session) (now : Z) :
  reachable g x → userId (ui x) = None →
  enabled x (ev_clickCreate now) = true →
  truthy (title (newPost (ui x))) = true →
  truthy (content (newPost (ui x))) = true →
  postsCollectionPath g (ui x)
  = "artifacts/" +:+ appId g +:+ "/users/null/blogPosts" ∧
  feed x = feed_none ∧
  (collectionPathOk ("artifacts/" +:+ appId g +:+ "/users/null/blogPosts")
   = true →
   (step g x (ev_clickCreate now)).2
   = [addDoc ("artifacts/" +:+ appId g +:+ "/users/null/blogPosts")
        (mkObj None (title (newPost (ui x))) (content (newPost (ui x)))
           (Some "Murad Amin") (Some now))]) ∧
  (collectionPathOk ("artifacts/" +:+ appId g +:+ "/users/null/blogPosts")
   = false →
   step g x (ev_clickCreate now)
   = (x, [console_error "Error adding document: "])) ∧
  (plainSegment (appId g) = true →
   collectionPathOk ("artifacts/" +:+ appId g +:+ "/users/null/blogPosts")
   = true).
Proof.
  intros Hx Hu Hen Ht Hc.
  destruct (reachable_write_click_has_db g x _ Hx Hen) as [d Hdb]; [eauto|].
  assert (postsCollectionPath g (ui x)
          = "artifacts/" +:+ appId g +:+ "/users/null/blogPosts") as Hpath
    by (unfold postsCollectionPath; by rewrite Hu).
  rewrite <- Hpath. split_and!.
  - done.
  - assert (unmounted (feed x) = false) as Hm.
    { pose proof Hen as Hm. simpl in Hm. apply andb_true_iff in Hm as [Hm _].
      by apply negb_true_iff in Hm. }
    destruct (reachable_feedPath g x Hx) as [Hdown|[Hsync _]]; [congruence|].
    rewrite postsListener_None in Hsync by auto. by destruct (feed x).
  - intros Hok. rewrite step_clickCreate by done.
    unfold createPost. by rewrite Ht, Hc, Hdb, collection_ok.
  - intros Hbad.
    rewrite (step_turn g x (ev_clickCreate now) (createPost g now (ui x)))
      by auto using next_createPost.
    rewrite createPost_refused by done. simpl. rewrite app_nil_r.
    by destruct x.
  - intros Ha. apply collectionPathOk_plain; [done|]. by rewrite Hu.
Qed.

Lemma create_without_identity_writes_under_null_witness :
  (step sampleGlobals atNullIdentityDraft (ev_clickCreate 1700000000000)).2
  = [addDoc ("artifacts/" +:+ appId sampleGlobals +:+ "/users/null/blogPosts")
       (mkObj None (title (newPost (ui atNullIdentityDraft)))
          (content (newPost (ui atNullIdentityDraft)))
          (Some "Murad Amin") (Some 1700000000000))] ∧
  step emptyAppId atEmptyAppIdDraft (ev_clickCreate 1700000000000)
  = (atEmptyAppIdDraft, [console_error "Error adding document: "]).
Proof.
  split.
  - apply (create_without_identity_writes_under_null sampleGlobals
             atNullIdentityDraft 1700000000000).
    + exists toNullIdentityDraft. vm_compute; reflexivity.
    + vm_compute; reflexivity.
    + vm_compute; reflexivity.
    + vm_compute; reflexivity.
    + vm_compute; reflexivity.
    + vm_compute; reflexivity.
  - apply (create_without_identity_writes_under_null emptyAppId
             atEmptyAppIdDraft 1700000000000).
    + exists toNullIdentityDraft. vm_compute; reflexivity.
    + vm_compute; reflexivity.
    + vm_compute; reflexivity.
    + vm_compute; reflexivity.
    + vm_compute; reflexivity.
    + vm_compute; reflexivity.
Defined.

(** X16. [createPost] does not look at writes still in flight: pressing
    Create twice on the same draft sends two documents with the same title
    and content, each with the time of its own click, when the SDK accepts
    the posts path; when it refuses the path each click only logs. *)
Theorem create_twice_writes_twice
    (g : Globals) (x : Session) (now1 now2 : Z) :
  reachable g x → enabled x (ev_clickCreate now1) = true →
  truthy (title (newPost (ui x))) = true →
  truthy (content (newPost (ui x))) = true →
  (collectionPathOk (postsCollectionPath g (ui x)) = true →
   (run g x [ev_clickCreate now1; ev_clickCreate now2]).2
   = [addDoc (postsCollectionPath g (ui x))
        (mkObj None (title (newPost (ui x))) (content (newPost (ui x)))
           (Some "Murad Amin") (Some now1));
      addDoc (postsCollectionPath g (ui x))
        (mkObj None (title (newPost (ui x))) (content (newPost (ui x)))
           (Some "Murad Amin") (Some now2))]) ∧
  (collectionPathOk (postsCollectionPath g (ui x)) = false →
   run g x [ev_clickCreate now1; ev_clickCreate now2]
   = (x, [console_error "Error adding document: ";
          console_error "Error adding document: "])).
Proof.
  intros Hx Hen Ht Hc.
  destruct (reachable_write_click_has_db g x _ Hx Hen) as [d Hdb]; [eauto|].
  split.
  - intros Hok.
    assert (∀ now, createPost g now (ui x)
                   = mkTurn (ui x)
                       [addDoc (postsCollectionPath g (ui x))
                          (mkObj None (title (newPost (ui x)))
                             (content (newPost (ui x)))
                             (Some "Murad Amin") (Some now))]
                       (Some await_addDoc)) as Hcreate.
    { intros now. unfold createPost. by rewrite Ht, Hc, Hdb, collection_ok. }
    simpl.
    rewrite (step_turn g x (ev_clickCreate now1) (createPost g now1 (ui x)))
      by auto using next_createPost.
    rewrite (step_turn g _ (ev_clickCreate now2) (createPost g now2 (ui x)))
      by auto using next_createPost.
    by rewrite !Hcreate.
  - intros Hbad.
    assert (∀ now, step g x (ev_clickCreate now)
                   = (x, [console_error "Error adding document: "])) as Hstep.
    { intros now.
      rewrite (step_turn g x (ev_clickCreate now) (createPost g now (ui x)))
        by auto using next_createPost.
      rewrite createPost_refused by done. simpl. rewrite app_nil_r.
      by destruct x. }
    simpl. by rewrite !Hstep.
Qed.

Lemma create_twice_writes_twice_witness :
  (run sampleGlobals atHiWorldDraft [ev_clickCreate 1000; ev_clickCreate 1001]).2
  = [addDoc (postsCollectionPath sampleGlobals (ui atHiWorldDraft))
       (mkObj None (title (newPost (ui atHiWorldDraft)))
          (content (newPost (ui atHiWorldDraft)))
          (Some "Murad Amin") (Some 1000));
     addDoc (postsCollectionPath sampleGlobals (ui atHiWorldDraft))
       (mkObj None (title (newPost (ui atHiWorldDraft)))
          (content (newPost (ui atHiWorldDraft)))
          (Some "Murad Amin") (Some 1001))] ∧
  run emptyAppId atEmptyAppIdDraft [ev_clickCreate 1000; ev_clickCreate 1001]
  = (atEmptyAppIdDraft, [console_error "Error adding document: ";
                         console_error "Error adding document: "]).
Proof.
  split.
  - apply (proj1 (create_twice_writes_twice sampleGlobals atHiWorldDraft
                    1000 1001
                    (ex_intro _ toHiWorldDraft eq_refl)
                    ltac:(vm_compute; reflexivity)
                    ltac:(vm_compute; reflexivity)
                    ltac:(vm_compute; reflexivity))).
    vm_compute; reflexivity.
  - apply (proj2 (create_twice_writes_twice emptyAppId atEmptyAppIdDraft
                    1000 1001
                    (ex_intro _ toNullIdentityDraft eq_refl)
                    ltac:(vm_compute; reflexivity)
                    ltac:(vm_compute; reflexivity)
                    ltac:(vm_compute; reflexivity))).
    vm_compute; reflexivity.
Defined.

(** X17. Whenever the delete prompt is up there is a post pending, and the
    Delete button of the prompt acts on that post: when the SDK accepts the
    path of its document it sends exactly one [deleteDoc] for it and leaves
    the page as it is until the store answers; when the SDK refuses the
    path it only logs the error. *)
Theorem confirm_always_deletes_the_pending_post (g : Globals) (x : Session) :
  reachable g x → enabled x ev_confirmDelete = true →
  ∃ p,
    postToDelete (ui x) = Some p ∧
    (documentPathOk (postsDocPath g (ui x) (id p)) = true →
     step g x ev_confirmDelete
     = (mkSession (ui x) (feed x) (authListener x)
          (inflight x ++ [await_deleteDoc]),
        [deleteDoc (postsDocPath g (ui x) (id p))])) ∧
    (documentPathOk (postsDocPath g (ui x) (id p)) = false →
     step g x ev_confirmDelete
     = (x, [console_error "Error deleting document: "])).
Proof.
  intros Hx Hen.
  assert (showDeleteModal (ui x) = true) as Hm
    by (simpl in Hen; by apply andb_true_iff in Hen as [_ ?]).
  destruct (reachable_prompt g x Hx Hm) as [p Hp].
  destruct (reachable_write_click_has_db g x _ Hx Hen) as [d Hdb]; [eauto|].
  exists p. split; [done|].
  rewrite (step_turn g x ev_confirmDelete (deletePost g (ui x)))
    by auto using next_deletePost.
  split; [intros Hok|intros Hbad].
  - by rewrite (deletePost_pending g (ui x) d p).
  - rewrite (deletePost_refused g (ui x) p) by done. simpl.
    rewrite app_nil_r. by destruct x.
Qed.

Lemma confirm_always_deletes_the_pending_post_witness :
  ∃ p,
    postToDelete (ui atDeletePrompt) = Some p ∧
    (documentPathOk (postsDocPath sampleGlobals (ui atDeletePrompt) (id p))
     = true →
     step sampleGlobals atDeletePrompt ev_confirmDelete
     = (mkSession (ui atDeletePrompt) (feed atDeletePrompt)
          (authListener atDeletePrompt)
          (inflight atDeletePrompt ++ [await_deleteDoc]),
        [deleteDoc (postsDocPath sampleGlobals (ui atDeletePrompt) (id p))])) ∧
    (documentPathOk (postsDocPath sampleGlobals (ui atDeletePrompt) (id p))
     = false →
     step sampleGlobals atDeletePrompt ev_confirmDelete
     = (atDeletePrompt, [console_error "Error deleting document: "])).
Proof.
  apply confirm_always_deletes_the_pending_post.
  - exists toDeletePrompt. vm_compute; reflexivity.
  - vm_compute; reflexivity.
Defined.

(** X18. Cancelling the prompt hides it but keeps the post it was about;
    asking to delete another post replaces it, so that confirming then
    acts on the post asked for last and only on that one: it is deleted
    when the SDK accepts the path of its document, and otherwise the error
    is logged and nothing is deleted. *)
Theorem last_request_is_the_one_deleted
    (g : Globals) (x : Session) (p q : Obj) :
  reachable g x →
  enabled x (ev_clickDelete p) = true → enabled x (ev_clickDelete q) = true →
  postToDelete (ui (run g x [ev_clickDelete p; ev_cancelDelete]).1) = Some p ∧
  showDeleteModal (ui (run g x [ev_clickDelete p; ev_cancelDelete]).1) = false ∧
  (documentPathOk (postsDocPath g (ui x) (id q)) = true →
   (run g x [ev_clickDelete p; ev_cancelDelete; ev_clickDelete q;
             ev_confirmDelete]).2
   = [deleteDoc (postsDocPath g (ui x) (id q))]) ∧
  (documentPathOk (postsDocPath g (ui x) (id q)) = false →
   (run g x [ev_clickDelete p; ev_cancelDelete; ev_clickDelete q;
             ev_confirmDelete]).2
   = [console_error "Error deleting document: "]).
Proof.
  intros Hx Hp Hq.
  assert (unmounted (feed x) = false ∧ adminRendered (ui x) = true)
    as [Hm Hadmin].
  { simpl in Hp. apply andb_true_iff in Hp as [Hm Hp].
    apply andb_true_iff in Hp as [? _]. by apply negb_true_iff in Hm. }
  assert (is_Some (db (ui x))) as [d Hdb].
  { apply (reachable_has_db g x Hx). left.
    unfold adminRendered, blogRendered in Hadmin.
    by destruct (isAuthReady (ui x)). }
  simpl.
  rewrite (step_ofState g x (ev_clickDelete p)
             (showDeleteConfirmation p (ui x))) by done.
  rewrite (step_ofState g _ ev_cancelDelete
             (setShowDeleteModal false (showDeleteConfirmation p (ui x))))
    by (simpl; by rewrite ?Hm).
  simpl. split; [done|]. split; [done|].
  rewrite (step_ofState g _ (ev_clickDelete q)
             (showDeleteConfirmation q (ui x))); [|exact Hq|done|done].
  rewrite (step_turn g _ ev_confirmDelete
             (deletePost g (showDeleteConfirmation q (ui x))))
    by (simpl; rewrite ?Hm; auto using next_deletePost).
  simpl. unfold deletePost. simpl.
  change (postsDocPath g (showDeleteConfirmation q (ui x)) (id q))
    with (postsDocPath g (ui x) (id q)).
  rewrite Hdb. split; intros Hpath.
  - by rewrite doc_ok.
  - by rewrite doc_refused.
Qed.

Lemma last_request_is_the_one_deleted_witness :
  (run sampleGlobals atTwoPosts
     [ev_clickDelete (toPost (sampleDoc "a" (Some 100))); ev_cancelDelete;
      ev_clickDelete (toPost (sampleDoc "b" (Some 200))); ev_confirmDelete]).2
  = [deleteDoc
       (postsDocPath sampleGlobals (ui atTwoPosts)
          (id (toPost (sampleDoc "b" (Some 200)))))].
Proof.
  apply (proj1 (proj2 (proj2
           (last_request_is_the_one_deleted sampleGlobals atTwoPosts
              (toPost (sampleDoc "a" (Some 100)))
              (toPost (sampleDoc "b" (Some 200)))
              (ex_intro _ toTwoPosts eq_refl)
              ltac:(vm_compute; reflexivity)
              ltac:(vm_compute; reflexivity))))).
  vm_compute; reflexivity.
Defined.

(** ** Navigation and snapshots *)

Lemma step_navigation g x e :
  isNavigation e = true →
  (step g x e).2 = [] ∧
  feed (step g x e).1 = feed x ∧ inflight (step g x e).1 = inflight x ∧
  posts (ui (step g x e).1) = posts (ui x) ∧
  newPost (ui (step g x e).1) = newPost (ui x) ∧
  editingPost (ui (step g x e).1) = editingPost (ui x) ∧
  postToDelete (ui (step g x e).1) = postToDelete (ui x) ∧
  showDeleteModal (ui (step g x e).1) = showDeleteModal (ui x) ∧
  userId (ui (step g x e).1) = userId (ui x) ∧
  isAuthReady (ui (step g x e).1) = isAuthReady (ui x).
Proof.
  intros Hnav. destruct (enabled x e) eqn:Hen; [|by rewrite step_disabled].
  destruct e; try done.
  - by rewrite (step_ofState g x _ (onNavigate v (ui x))).
  - by rewrite (step_ofState g x _
                  (setIsMobileMenuOpen (negb (isMobileMenuOpen (ui x))) (ui x))).
  - by rewrite (step_ofState g x _ (setIsMobileMenuOpen false (ui x))).
  - by rewrite (step_ofState g x _ (setBlogView v (ui x))).
Qed.

(** X19. Moving around the page, between Home and Blog, Public and Admin,
    with the menu open or closed, calls nothing and loses nothing: the post
    list, the draft, the edit in progress, the pending deletion, the
    identity, the listener and the writes in flight are all as before. *)
Theorem navigation_keeps_the_work
    (g : Globals) (x : Session) (es : list Event) :
  Forall (λ e, isNavigation e = true) es →
  (run g x es).2 = [] ∧
  feed (run g x es).1 = feed x ∧ inflight (run g x es).1 = inflight x ∧
  posts (ui (run g x es).1) = posts (ui x) ∧
  newPost (ui (run g x es).1) = newPost (ui x) ∧
  editingPost (ui (run g x es).1) = editingPost (ui x) ∧
  postToDelete (ui (run g x es).1) = postToDelete (ui x) ∧
  showDeleteModal (ui (run g x es).1) = showDeleteModal (ui x) ∧
  userId (ui (run g x es).1) = userId (ui x) ∧
  isAuthReady (ui (run g x es).1) = isAuthReady (ui x).
Proof.
  intros Hes. revert x. induction Hes as [|e es He Hes IH]; intros x; [done|].
  destruct (step_navigation g x e He)
    as (Hout & ? & ? & ? & ? & ? & ? & ? & ? & ?).
  simpl. destruct (step g x e) as [x' out]. simpl in *.
  destruct (IH x') as (Hout' & ? & ? & ? & ? & ? & ? & ? & ? & ?).
  destruct (run g x' es) as [x'' out']. simpl in *.
  rewrite Hout, Hout'. split_and!; [done|congruence..].
Qed.

Lemma navigation_keeps_the_work_witness :
  (run sampleGlobals atEditing
     [ev_navigate home; ev_toggleMenu; ev_navigate blog;
      ev_setBlogView public; ev_setBlogView admin; ev_closeMenu]).2 = [] ∧
  editingPost
    (ui (run sampleGlobals atEditing
           [ev_navigate home; ev_toggleMenu; ev_navigate blog;
            ev_setBlogView public; ev_setBlogView admin; ev_closeMenu]).1)
  = editingPost (ui atEditing).
Proof.
  destruct (navigation_keeps_the_work sampleGlobals atEditing
              [ev_navigate home; ev_toggleMenu; ev_navigate blog;
               ev_setBlogView public; ev_setBlogView admin; ev_closeMenu])
    as (Hout & _ & _ & _ & _ & Hedit & _).
  - repeat constructor.
  - by split.
Defined.

(** X20. A snapshot replaces the post list and touches nothing else, and of
    two snapshots in a row only the second counts: the list never mixes
    documents of different emissions. *)
Theorem last_snapshot_wins
    (g : Globals) (x : Session) (docs1 docs2 : list QueryDocumentSnapshot) :
  run g x [ev_snapshot docs1; ev_snapshot docs2] = run g x [ev_snapshot docs2] ∧
  (feedOpen (feed x) = true →
   step g x (ev_snapshot docs2)
   = (mkSession (setPosts (fetchedPosts docs2) (ui x)) (feed x)
        (authListener x) (inflight x), [])).
Proof.
  assert (∀ docs y, feedOpen (feed y) = true →
            step g y (ev_snapshot docs)
            = (mkSession (setPosts (fetchedPosts docs) (ui y)) (feed y)
                 (authListener y) (inflight y), [])) as Hsnap.
  { intros docs y Hopen. by apply step_ofState. }
  split; [|apply Hsnap].
  simpl. destruct (feedOpen (feed x)) eqn:Hopen.
  - by rewrite (Hsnap docs1 x), !Hsnap.
  - by rewrite !step_disabled.
Qed.

Lemma last_snapshot_wins_witness :
  step sampleGlobals atAdminPanel (ev_snapshot [sampleDoc "a" (Some 100)])
  = (mkSession
       (setPosts (fetchedPosts [sampleDoc "a" (Some 100)]) (ui atAdminPanel))
       (feed atAdminPanel) (authListener atAdminPanel) (inflight atAdminPanel),
     []).
Proof.
  apply (proj2 (last_snapshot_wins sampleGlobals atAdminPanel []
                  [sampleDoc "a" (Some 100)])).
  vm_compute; reflexivity.
Defined.

(** X21. When the anonymous sign-in resolves, the page takes the uid it
    returned and stops showing the loading notice, and the posts effect
    runs for the first time past its guard: when the SDK accepts the posts
    path of that uid, as it does when app id and uid are plain segments, it
    opens the first listener there; when the SDK refuses the path,
    [collection] throws in the effect and the page is taken down. Nothing
    is unsubscribed from the store, since nothing was open. *)
Theorem anonymous_sign_in_opens_first_listener
    (g : Globals) (x : Session) (i : nat) (uid : string) :
  reachable g x → userId (ui x) = None →
  inflight x !! i = Some await_signInAnonymously → uid ≠ "" →
  (collectionPathOk ("artifacts/" +:+ appId g +:+ "/users/" +:+ uid
                     +:+ "/blogPosts") = true →
   step g x (ev_settled i (resolved uid))
   = (mkSession (setIsAuthReady true (setUserId (Some uid) (ui x)))
        (feed_open ("artifacts/" +:+ appId g +:+ "/users/" +:+ uid
                    +:+ "/blogPosts"))
        (authListener x) (delete i (inflight x)),
      [onSnapshot ("artifacts/" +:+ appId g +:+ "/users/" +:+ uid
                   +:+ "/blogPosts")])) ∧
  (collectionPathOk ("artifacts/" +:+ appId g +:+ "/users/" +:+ uid
                     +:+ "/blogPosts") = false →
   step g x (ev_settled i (resolved uid))
   = (mkSession (setIsAuthReady true (setUserId (Some uid) (ui x)))
        feed_threw (authListener x) (delete i (inflight x)),
      [uncaught_error; unsubscribeAuth])) ∧
  (plainSegment (appId g) = true → plainSegment uid = true →
   collectionPathOk ("artifacts/" +:+ appId g +:+ "/users/" +:+ uid
                     +:+ "/blogPosts") = true).
Proof.
  intros Hx Hu Hi Huid.
  assert (is_Some (db (ui x))) as [d Hdb].
  { destruct (reachable_wired g x Hx) as [?|(_ & Hnil & _)]; [done|].
    by rewrite Hnil in Hi. }
  assert (authListener x = true) as Hl
    by (apply (reachable_registered g x Hx); by rewrite Hdb).
  assert (unmounted (feed x) = false) as Hm.
  { destruct (unmounted (feed x)) eqn:Hm; [|done].
    destruct (reachable_unmounted g x Hx Hm) as [u Hu']. congruence. }
  assert (feed x = feed_none) as Hf.
  { destruct (reachable_feedPath g x Hx) as [?|[Hsync _]]; [congruence|].
    rewrite postsListener_None in Hsync by auto. by destruct (feed x). }
  assert (postsCollectionPath g (setIsAuthReady true
                                   (setUserId (Some uid) (ui x)))
          = "artifacts/" +:+ appId g +:+ "/users/" +:+ uid +:+ "/blogPosts")
    as Hpath by done.
  rewrite <- Hpath.
  rewrite step_enabled by (simpl; rewrite Hi; by apply bool_decide_eq_true_2).
  simpl. rewrite Hi. simpl. unfold syncListener. rewrite Hf, Hl. simpl.
  rewrite bool_decide_eq_false_2
    by (unfold listenerDeps; simpl; rewrite Hu; congruence).
  split_and!.
  - intros Hok.
    by rewrite (postsEffect_ok g _ d) by (try apply truthy_nonempty; done).
  - intros Hbad.
    by rewrite (postsEffect_refused g _ d)
      by (try apply truthy_nonempty; done).
  - intros Ha Hp. by apply collectionPathOk_plain.
Qed.

Lemma anonymous_sign_in_opens_first_listener_witness :
  step sampleGlobals
    (step sampleGlobals (mount sampleGlobals).1 (ev_authStateChanged None)).1
    (ev_settled 0 (resolved "anon1"))
  = (mkSession
       (setIsAuthReady true
          (setUserId (Some "anon1")
             (ui (step sampleGlobals (mount sampleGlobals).1
                    (ev_authStateChanged None)).1)))
       (feed_open ("artifacts/" +:+ appId sampleGlobals +:+ "/users/"
                   +:+ "anon1" +:+ "/blogPosts"))
       (authListener
          (step sampleGlobals (mount sampleGlobals).1
             (ev_authStateChanged None)).1)
       (delete 0%nat
          (inflight
             (step sampleGlobals (mount sampleGlobals).1
                (ev_authStateChanged None)).1)),
     [onSnapshot ("artifacts/" +:+ appId sampleGlobals +:+ "/users/"
                  +:+ "anon1" +:+ "/blogPosts")]) ∧
  step slashAppId
    (step slashAppId (mount slashAppId).1 (ev_authStateChanged None)).1
    (ev_settled 0 (resolved "anon1"))
  = (mkSession
       (setIsAuthReady true
          (setUserId (Some "anon1")
             (ui (step slashAppId (mount slashAppId).1
                    (ev_authStateChanged None)).1)))
       feed_threw
       (authListener
          (step slashAppId (mount slashAppId).1 (ev_authStateChanged None)).1)
       (delete 0%nat
          (inflight
             (step slashAppId (mount slashAppId).1
                (ev_authStateChanged None)).1)),
     [uncaught_error; unsubscribeAuth]).
Proof.
  split.
  - apply (proj1 (anonymous_sign_in_opens_first_listener sampleGlobals
                    (step sampleGlobals (mount sampleGlobals).1
                       (ev_authStateChanged None)).1 0 "anon1"
                    (ex_intro _ [ev_authStateChanged None] eq_refl)
                    ltac:(vm_compute; reflexivity)
                    ltac:(vm_compute; reflexivity)
                    ltac:(discriminate))).
    vm_compute; reflexivity.
  - apply (proj1 (proj2 (anonymous_sign_in_opens_first_listener slashAppId
                    (step slashAppId (mount slashAppId).1
                       (ev_authStateChanged None)).1 0 "anon1"
                    (ex_intro _ [ev_authStateChanged None] eq_refl)
                    ltac:(vm_compute; reflexivity)
                    ltac:(vm_compute; reflexivity)
                    ltac:(discriminate)))).
    vm_compute; reflexivity.
Defined.

(** ** Bootstrap with a configuration, and the remaining continuations *)

(** X22. With a usable configuration the first effect sets both handles,
    registers the auth listener and, only when a non-empty initial token is
    given, signs in with it; the page then still shows the loading notice
    and holds no posts listener. A custom-token sign-in that settles changes
    no state: when it is rejected the error is logged, and that is all. *)
Theorem usable_config_registers_auth_listener (g : Globals) :
  usableConfig g = true →
  (mount g).2
  = [initializeApp; onAuthStateChanged]
    ++ (if truthy (__initial_auth_token g)
        then [signInWithCustomToken (default "" (__initial_auth_token g))]
        else []) ∧
  ui (mount g).1
  = setAuth (Some firebaseAuth) (setDb (Some firestore) initialState) ∧
  authListener (mount g).1 = true ∧ feed (mount g).1 = feed_none ∧
  screen (ui (mount g).1) = scr_loading ∧
  (∀ x i o, inflight x !! i = Some await_signInWithCustomToken →
     ui (step g x (ev_settled i o)).1 = ui x ∧
     feed (step g x (ev_settled i o)).1 = feed x ∧
     (step g x (ev_settled i o)).2
     = match o with
       | resolved _ => []
       | rejected _ => [console_error "Custom token sign-in failed:"]
       end).
Proof.
  intros Hcfg. unfold usableConfig in Hcfg.
  assert (__firebase_config g = Some (cfg_keys true)) as Hg.
  { destruct (__firebase_config g) as [[| |[]]|]; done. }
  unfold mount, initFirebase. rewrite Hg.
  split_and!.
  - by destruct (truthy (__initial_auth_token g)).
  - by destruct (truthy (__initial_auth_token g)).
  - by destruct (truthy (__initial_auth_token g)).
  - by destruct (truthy (__initial_auth_token g)).
  - by destruct (truthy (__initial_auth_token g)).
  - intros x i o Hi.
    rewrite step_enabled by (simpl; rewrite Hi; by apply bool_decide_eq_true_2).
    simpl. rewrite Hi. destruct o; simpl; by rewrite syncListener_same.
Qed.

Lemma usable_config_registers_auth_listener_witness :
  (mount (mkGlobals (Some (cfg_keys true)) None (Some "tok"))).2
  = [initializeApp; onAuthStateChanged]
    ++ (if truthy
             (__initial_auth_token
                (mkGlobals (Some (cfg_keys true)) None (Some "tok")))
        then [signInWithCustomToken
                (default ""
                   (__initial_auth_token
                      (mkGlobals (Some (cfg_keys true)) None (Some "tok"))))]
        else []).
Proof.
  apply (usable_config_registers_auth_listener
           (mkGlobals (Some (cfg_keys true)) None (Some "tok"))).
  vm_compute; reflexivity.
Defined.

(** X23. When an update succeeds the edit form is closed as it is at that
    moment: whatever is being edited then, a post picked after the update
    was sent included, is dropped; the draft of a new post and everything
    else stay, and nothing is called. *)
Theorem update_success_closes_any_edit
    (g : Globals) (x : Session) (i : nat) (v : string) :
  inflight x !! i = Some await_updateDoc →
  step g x (ev_settled i (resolved v))
  = (mkSession (setEditingPost None (ui x)) (feed x) (authListener x)
       (delete i (inflight x)), []).
Proof.
  intros Hi.
  rewrite step_enabled by (simpl; rewrite Hi; by apply bool_decide_eq_true_2).
  simpl. rewrite Hi. simpl. by rewrite syncListener_deps.
Qed.

Lemma update_success_closes_any_edit_witness :
  editingPost
    (ui (run sampleGlobals atTwoPosts
           [ev_clickEdit (toPost (sampleDoc "a" (Some 100))); ev_clickUpdate;
            ev_clickEdit (toPost (sampleDoc "b" (Some 200)));
            ev_typeTitle "Unsaved"]).1)
  = Some (mkObj (Some "b") (Some "Unsaved") (Some "World") (Some "Murad Amin")
            (Some 200)) ∧
  editingPost
    (ui (step sampleGlobals
           (run sampleGlobals atTwoPosts
              [ev_clickEdit (toPost (sampleDoc "a" (Some 100)));
               ev_clickUpdate;
               ev_clickEdit (toPost (sampleDoc "b" (Some 200)));
               ev_typeTitle "Unsaved"]).1
           (ev_settled 0 (resolved ""))).1)
  = None.
Proof.
  split; [vm_compute; reflexivity|].
  rewrite (update_success_closes_any_edit sampleGlobals _ 0%nat "").
  - reflexivity.
  - vm_compute; reflexivity.
Defined.

Lemma step_no_rejection g x e : unhandled_rejection ∉ (step g x e).2.
Proof.
  destruct (enabled x e) eqn:Hen;
    [|rewrite step_disabled by done; apply not_elem_of_nil].
  rewrite step_enabled by done. simpl. rewrite elem_of_app. intros [Hin|Hin].
  - destruct e; simpl in Hin;
      try (by apply elem_of_nil in Hin).
    + destruct user; simpl in Hin;
        rewrite ?list_elem_of_singleton in Hin; by try apply elem_of_nil in Hin.
    + destruct (inflight x !! i) as [a|]; [|by apply elem_of_nil in Hin].
      destruct a, o; simpl in Hin;
        rewrite ?list_elem_of_singleton in Hin; by try apply elem_of_nil in Hin.
    + by apply list_elem_of_singleton in Hin.
    + unfold createPost in Hin.
      repeat case_match; simpl in Hin; by apply list_elem_of_singleton in Hin.
    + simpl in Hen. apply andb_true_iff in Hen as [_ Hed].
      apply andb_true_iff in Hed as [_ Hed].
      apply bool_decide_eq_true in Hed as [p Hp].
      unfold updatePost in Hin. rewrite Hp in Hin.
      repeat case_match; simpl in Hin; by apply list_elem_of_singleton in Hin.
    + unfold deletePost in Hin.
      repeat case_match; simpl in Hin;
        rewrite ?list_elem_of_singleton in Hin; by try apply elem_of_nil in Hin.
  - revert Hin. unfold syncListener.
    destruct (unmounted _); [apply not_elem_of_nil|].
    case_bool_decide; simpl; [apply not_elem_of_nil|].
    destruct (postsEffect g _), (r_feed _), (authListener x); simpl;
      rewrite ?elem_of_cons, ?elem_of_nil; intros Hin;
      repeat destruct Hin as [Hin|Hin]; done.
Qed.

(** X24. [updatePost] reads [editingPost.title] before its [try]; the page
    never lets that throw: the Update button exists only while a post is
    being edited, so no run of the page ends in an unhandled rejection. *)
Theorem update_never_runs_without_a_post
    (g : Globals) (x : Session) (es : list Event) :
  (unhandled_rejection ∉ (run g x es).2) ∧
  (did (updatePost g None (setEditingPost None (ui x)))
   = [unhandled_rejection]).
Proof.
  split; [|done].
  revert x. induction es as [|e es IH]; intros x; [apply not_elem_of_nil|].
  simpl. pose proof (step_no_rejection g x e) as Hstep.
  destruct (step g x e) as [x' out]. specialize (IH x').
  destruct (run g x' es) as [x'' out']. simpl in *.
  rewrite elem_of_app. tauto.
Qed.
